(** * ErrorBlacklist: a shallow embedding of [errorblacklist/errorblacklist.py]

    The cog watches command errors, counts them per user and per command in
    an in-memory dictionary, and blacklists a user whose count reaches the
    configured amount.  Settings and per-user data live in the host's
    [Config] store; the bot's blacklist and owner set belong to the host.

    Dictionaries are [gmap]s, the configuration lists are [list]s (the code
    appends to them and removes the first occurrence), Python integers are
    [Z], and every coroutine is a function from the cog's state to a
    [Result]: the new state, the events it emitted in order, and the
    exception that ended it, if any. *)

From Stdlib Require Import ZArith Ascii String List Lia.
From stdpp Require Import gmap strings list fin_maps pretty.

Set Warnings "-register-all".

Local Open Scope Z_scope.

(** ** Python values *)

(** The values that occur in [_config_structure] and in messages. *)
Inductive pyobj : Type :=
| PyBool (b : bool)
| PyInt (n : Z)
| PyStr (s : string)
| PyList (l : list pyobj)
| PyDict (d : list (string * pyobj)).

(** What a user's dictionary in [self._cache] holds under a key: a number
    written by [on_command_error], or the ["errors"] dictionary that
    [Config.all_users] returns for a user with stored data. *)
Inductive entry : Type :=
| Count (n : Z)
| Errors (d : gmap string Z).

Inductive exn : Type :=
| KeyError (key : string)
| TypeError
| AttributeError
| BadArgument
| CheckFailure.

(** [d[key]] on a dictionary literal. *)
Fixpoint getitem (d : list (string * pyobj)) (key : string) : exn + pyobj :=
  match d with
  | [] => inl (KeyError key)
  | (k, v) :: d' => if String.eqb k key then inr v else getitem d' key
  end.

Definition nl : string := String "010"%char EmptyString.

(** Lines 21-45. *)
Definition _config_structure : list (string * pyobj) :=
  [ ("global",
     PyDict
       [ ("enabled", PyBool false);
         ("amount", PyInt 5);
         ("clear_usage", PyBool true);
         ("whitelist",
          PyDict [ ("commands", PyList []); ("cogs", PyList []); ("users", PyList []) ]);
         ("ignore", PyDict [ ("guilds", PyList []); ("channels", PyList []) ]);
         ("message",
          PyStr ("Please do not use this command anymore." +:+ nl +:+ nl +:+
                 "Continued usage of this command will result in you being blacklisted from using " +:+
                 "my commands."));
         ("message_enabled", PyBool true) ]);
    ("user", PyDict [ ("errors", PyDict []) ]) ].

(** ** The cog's state *)

(** The global settings group of the host's [Config]. *)
Record Settings : Type := mkSettings {
  enabled : bool;
  amount : Z;
  clear_usage : bool;
  whitelist_commands : list string;
  whitelist_cogs : list string;
  whitelist_users : list Z;
  ignore_guilds : list Z;
  ignore_channels : list Z;
  message : pyobj;
  message_enabled : bool
}.

(** The cog together with the host state it reads and writes:
    [config] and [users] are the persisted global and per-user groups
    ([users] maps a user id to that user's stored ["errors"] dictionary),
    [blacklist] and [owner_ids] are the bot's, the rest are the instance's
    attributes; [task_running] is the state of the [clear_cache] loop. *)
Record Cog : Type := mkCog {
  config : Settings;
  users : gmap Z (gmap string Z);
  _cache : gmap Z (gmap string entry);
  first_run : bool;
  task_running : bool;
  blacklist : gset Z;
  owner_ids : gset Z
}.

Definition set_config (f : Settings → Settings) (s : Cog) : Cog :=
  mkCog (f (config s)) (users s) (_cache s) (first_run s) (task_running s)
        (blacklist s) (owner_ids s).
Definition set_users (u : gmap Z (gmap string Z)) (s : Cog) : Cog :=
  mkCog (config s) u (_cache s) (first_run s) (task_running s) (blacklist s) (owner_ids s).
Definition set_cache (c : gmap Z (gmap string entry)) (s : Cog) : Cog :=
  mkCog (config s) (users s) c (first_run s) (task_running s) (blacklist s) (owner_ids s).
Definition set_first_run (b : bool) (s : Cog) : Cog :=
  mkCog (config s) (users s) (_cache s) b (task_running s) (blacklist s) (owner_ids s).
Definition set_task_running (b : bool) (s : Cog) : Cog :=
  mkCog (config s) (users s) (_cache s) (first_run s) b (blacklist s) (owner_ids s).
Definition set_blacklist (b : gset Z) (s : Cog) : Cog :=
  mkCog (config s) (users s) (_cache s) (first_run s) (task_running s) b (owner_ids s).

Definition with_enabled (b : bool) (c : Settings) : Settings :=
  mkSettings b (amount c) (clear_usage c) (whitelist_commands c) (whitelist_cogs c)
    (whitelist_users c) (ignore_guilds c) (ignore_channels c) (message c) (message_enabled c).
Definition with_amount (n : Z) (c : Settings) : Settings :=
  mkSettings (enabled c) n (clear_usage c) (whitelist_commands c) (whitelist_cogs c)
    (whitelist_users c) (ignore_guilds c) (ignore_channels c) (message c) (message_enabled c).
Definition with_clear_usage (b : bool) (c : Settings) : Settings :=
  mkSettings (enabled c) (amount c) b (whitelist_commands c) (whitelist_cogs c)
    (whitelist_users c) (ignore_guilds c) (ignore_channels c) (message c) (message_enabled c).
Definition with_whitelist_commands (l : list string) (c : Settings) : Settings :=
  mkSettings (enabled c) (amount c) (clear_usage c) l (whitelist_cogs c)
    (whitelist_users c) (ignore_guilds c) (ignore_channels c) (message c) (message_enabled c).
Definition with_whitelist_cogs (l : list string) (c : Settings) : Settings :=
  mkSettings (enabled c) (amount c) (clear_usage c) (whitelist_commands c) l
    (whitelist_users c) (ignore_guilds c) (ignore_channels c) (message c) (message_enabled c).
Definition with_whitelist_users (l : list Z) (c : Settings) : Settings :=
  mkSettings (enabled c) (amount c) (clear_usage c) (whitelist_commands c) (whitelist_cogs c)
    l (ignore_guilds c) (ignore_channels c) (message c) (message_enabled c).
Definition with_ignore_guilds (l : list Z) (c : Settings) : Settings :=
  mkSettings (enabled c) (amount c) (clear_usage c) (whitelist_commands c) (whitelist_cogs c)
    (whitelist_users c) l (ignore_channels c) (message c) (message_enabled c).
Definition with_ignore_channels (l : list Z) (c : Settings) : Settings :=
  mkSettings (enabled c) (amount c) (clear_usage c) (whitelist_commands c) (whitelist_cogs c)
    (whitelist_users c) (ignore_guilds c) l (message c) (message_enabled c).
Definition with_message (m : pyobj) (c : Settings) : Settings :=
  mkSettings (enabled c) (amount c) (clear_usage c) (whitelist_commands c) (whitelist_cogs c)
    (whitelist_users c) (ignore_guilds c) (ignore_channels c) m (message_enabled c).
Definition with_message_enabled (b : bool) (c : Settings) : Settings :=
  mkSettings (enabled c) (amount c) (clear_usage c) (whitelist_commands c) (whitelist_cogs c)
    (whitelist_users c) (ignore_guilds c) (ignore_channels c) (message c) b.

(** ** What the handler sees of an invocation *)

Record CogInfo : Type := mkCogInfo {
  cog_qualified_name : string;
  has_error_handler : bool
}.

(** [name] is the command's own name, [qualified_name] the names of its
    parent groups followed by [name]; [has_on_error] is
    [hasattr(command, "on_error")]. *)
Record Command : Type := mkCommand {
  name : string;
  qualified_name : string;
  cog : option CogInfo;
  has_on_error : bool
}.

(** [guild] is [None] in a private channel. [ctx.cog] is the command's cog. *)
Record Context : Type := mkContext {
  command : option Command;
  author : Z;
  guild : option Z;
  channel : option Z
}.

Inductive Error : Type :=
| CommandInvokeError
| OtherError.

Inductive event : Type :=
| Send (content : pyobj)
| LogDebug (text : string)
| LogInfo (user : Z) (am : Z)
| Dispatch (event_name : string) (user : Z) (cmd : Command).

Record Result : Type := mkResult {
  state : Cog;
  events : list event;
  raised : option exn
}.

Definition returns (s : Cog) (evs : list event) : Result := mkResult s evs None.
Definition raises (e : exn) (s : Cog) (evs : list event) : Result := mkResult s evs (Some e).

(** ** Construction and loading *)

Definition default_of (group : string) (path : list string) : exn + pyobj :=
  foldl (λ acc key,
           match acc with
           | inr (PyDict d) => getitem d key
           | inr _ => inl TypeError
           | inl e => inl e
           end)
        (getitem _config_structure group) path.

Definition bool_of (o : exn + pyobj) : bool :=
  match o with inr (PyBool b) => b | _ => false end.
Definition int_of (o : exn + pyobj) : Z :=
  match o with inr (PyInt n) => n | _ => 0 end.
Definition ints_of (o : exn + pyobj) : list Z :=
  match o with
  | inr (PyList l) => omap (λ x, match x with PyInt n => Some n | _ => None end) l
  | _ => []
  end.
Definition strs_of (o : exn + pyobj) : list string :=
  match o with
  | inr (PyList l) => omap (λ x, match x with PyStr s => Some s | _ => None end) l
  | _ => []
  end.
Definition obj_of (o : exn + pyobj) : pyobj :=
  match o with inr v => v | inl _ => PyStr EmptyString end.

(** Lines 73-76: the global group of [_config_structure] registered as the
    defaults, the value every setting reads as until a command stores
    another. *)
Definition register_global : Settings :=
  {| enabled := bool_of (default_of "global" ["enabled"]);
     amount := int_of (default_of "global" ["amount"]);
     clear_usage := bool_of (default_of "global" ["clear_usage"]);
     whitelist_commands := strs_of (default_of "global" ["whitelist"; "commands"]);
     whitelist_cogs := strs_of (default_of "global" ["whitelist"; "cogs"]);
     whitelist_users := ints_of (default_of "global" ["whitelist"; "users"]);
     ignore_guilds := ints_of (default_of "global" ["ignore"; "guilds"]);
     ignore_channels := ints_of (default_of "global" ["ignore"; "channels"]);
     message := obj_of (default_of "global" ["message"]);
     message_enabled := bool_of (default_of "global" ["message_enabled"]) |}.

(** Lines 70-78. [stored] and [stored_users] are what the host's [Config]
    holds for this cog (on a first installation [register_global] and the
    empty map); the instance starts with an empty cache. *)
Definition __init__ (stored : Settings) (stored_users : gmap Z (gmap string Z))
    (bot_blacklist bot_owners : gset Z) : Cog :=
  {| config := stored; users := stored_users; _cache := ∅; first_run := true;
     task_running := false; blacklist := bot_blacklist; owner_ids := bot_owners |}.

(** [Config.all_users()]: every user with stored data, each with all the
    registered keys of the user group, here only ["errors"]. *)
Definition all_users (self : Cog) : gmap Z (gmap string entry) :=
  (λ errs, {[ "errors" := Errors errs ]}) <$> users self.

(** Lines 83-86. *)
Definition cog_load (self : Cog) : Cog :=
  let self := if clear_usage (config self) then set_task_running true self else self in
  set_cache (all_users self) self.

(** Lines 88-90. *)
Definition cog_unload (self : Cog) : Cog :=
  if task_running self then set_task_running false self else self.

(** ** Settings commands *)

(** The argument of the ignore commands.  The converter [ChannelOrGuild] is
    declared in [utils.py], which is not among the sources; the argument is
    modelled by what the bodies read of it: whether it is a guild, its id
    and its name. *)
Inductive ChannelOrGuild : Type :=
| AGuild (id : Z) (gname : string)
| AChannel (id : Z) (cname : string).

Definition target_id (t : ChannelOrGuild) : Z :=
  match t with AGuild i _ => i | AChannel i _ => i end.
Definition target_name (t : ChannelOrGuild) : string :=
  match t with AGuild _ n => n | AChannel _ n => n end.
Definition target_kind (t : ChannelOrGuild) : string :=
  match t with AGuild _ _ => "guild" | AChannel _ _ => "channel" end.
Definition ignore_data (t : ChannelOrGuild) (c : Settings) : list Z :=
  match t with AGuild _ _ => ignore_guilds c | AChannel _ _ => ignore_channels c end.
Definition with_ignore_data (t : ChannelOrGuild) (l : list Z) : Settings → Settings :=
  match t with AGuild _ _ => with_ignore_guilds l | AChannel _ _ => with_ignore_channels l end.

(** [list.remove]: drops the first occurrence. *)
Fixpoint list_remove {A} `{EqDecision A} (x : A) (l : list A) : list A :=
  match l with
  | [] => []
  | y :: l' => if decide (x = y) then l' else y :: list_remove x l'
  end.

Definition say (text : string) : event := Send (PyStr text).

(** Lines 118-133. *)
Definition ignore_add (self : Cog) (guild_or_channel : ChannelOrGuild) : Result :=
  let guild := target_kind guild_or_channel in
  let data := ignore_data guild_or_channel (config self) in
  if bool_decide (target_id guild_or_channel ∈ data) then
    returns self [say ("That " +:+ guild +:+ " is already being ignored")]
  else
    returns
      (set_config (with_ignore_data guild_or_channel (data ++ [target_id guild_or_channel])) self)
      [say ("I will now ignore the " +:+ guild +:+ " `" +:+ target_name guild_or_channel +:+ "`")].

(** Lines 135-150. *)
Definition ignore_remove (self : Cog) (guild_or_channel : ChannelOrGuild) : Result :=
  let guild := target_kind guild_or_channel in
  let data := ignore_data guild_or_channel (config self) in
  let _id := target_id guild_or_channel in
  if negb (bool_decide (_id ∈ data)) then
    returns self [say ("That " +:+ guild +:+ " is not in the ignored list")]
  else
    returns
      (set_config (with_ignore_data guild_or_channel (list_remove _id data)) self)
      [say ("I will no longer ignore the " +:+ guild +:+ " `" +:+ target_name guild_or_channel +:+ "`")].

(** Lines 169-178. *)
Definition error_blacklist_enable (self : Cog) : Result :=
  let self := set_config (with_enabled (negb (enabled (config self)))) self in
  let state_word := if enabled (config self) then "enabled" else "disabled" in
  returns self [say ("The error watcher is now " +:+ state_word +:+ ".")].

(** Lines 180-188. *)
Definition error_blacklist_clear_usage (self : Cog) (toggle : bool) : Result :=
  let state_word := if toggle then "enabled" else "disabled" in
  if Bool.eqb (clear_usage (config self)) toggle then
    returns self [say ("Usage clearing is already " +:+ state_word +:+ ".")]
  else
    returns (set_config (with_clear_usage toggle) self)
      [say ("Usage clearing is now " +:+ state_word +:+ ".")].

(** Modelled from the spec: the [PositiveInt] converter of [utils.py], which
    is not among the sources.  The amount command "only accepts positive
    integers": the converter hands a positive argument on and fails the
    invocation with [BadArgument] otherwise. *)
Definition PositiveInt (arg : Z) : exn + Z :=
  if bool_decide (0 < arg) then inr arg else inl BadArgument.

(** Lines 190-198, the body; [new_amount] is the converted argument. *)
Definition error_blacklist_amount (self : Cog) (new_amount : Z) : Result :=
  if bool_decide (new_amount = 1) then
    returns self [say "1?! Have mercy on them for Billy Bob's sake"]
  else
    returns (set_config (with_amount new_amount) self)
      [say ("Done. If a user uses a command that errors `" +:+ pretty new_amount +:+
            "` times they will be blacklisted")].

(** The amount command as the framework invokes it: convert, then run. *)
Definition invoke_amount (self : Cog) (arg : Z) : Result :=
  match PositiveInt arg with
  | inl e => raises e self []
  | inr new_amount => error_blacklist_amount self new_amount
  end.

(** The argument of the whitelist commands ([UserOrCommandCog], also of
    [utils.py]): a user with an id, or a cog or a command with a
    qualified name. *)
Inductive UserOrCommandCog : Type :=
| AUser (id : Z)
| ACog (cog_name : string)
| ACommand (command_name : string).

(** Lines 248-253: the middle component of the tuple; the first one is
    [is_user] below and the third one is the id or the qualified name. *)
Definition _get_user_or_com (maybe_user : UserOrCommandCog) : string :=
  match maybe_user with
  | AUser _ => "user"
  | ACog _ => "cog"
  | ACommand _ => "command"
  end.

Definition is_user (t : UserOrCommandCog) : bool :=
  match t with AUser _ => true | _ => false end.

(** [str(to_add)] as the replies print it. *)
Definition to_add_str (t : UserOrCommandCog) : string :=
  match t with AUser i => pretty i | ACog n => n | ACommand n => n end.

(** [to_add in await val()] for the list the target belongs to. *)
Definition in_whitelist (t : UserOrCommandCog) (c : Settings) : bool :=
  match t with
  | AUser i => bool_decide (i ∈ whitelist_users c)
  | ACog n => bool_decide (n ∈ whitelist_cogs c)
  | ACommand n => bool_decide (n ∈ whitelist_commands c)
  end.

Definition whitelist_append (t : UserOrCommandCog) (c : Settings) : Settings :=
  match t with
  | AUser i => with_whitelist_users (whitelist_users c ++ [i]) c
  | ACog n => with_whitelist_cogs (whitelist_cogs c ++ [n]) c
  | ACommand n => with_whitelist_commands (whitelist_commands c ++ [n]) c
  end.

Definition whitelist_drop (t : UserOrCommandCog) (c : Settings) : Settings :=
  match t with
  | AUser i => with_whitelist_users (list_remove i (whitelist_users c)) c
  | ACog n => with_whitelist_cogs (list_remove n (whitelist_cogs c)) c
  | ACommand n => with_whitelist_commands (list_remove n (whitelist_commands c)) c
  end.

(** Lines 208-227, run from start to end with no other invocation in
    between; the two halves of an overlapping invocation are modelled
    further down. *)
Definition whitelist_add (self : Cog) (user_com_or_cog : UserOrCommandCog) : Result :=
  let user := _get_user_or_com user_com_or_cog in
  if in_whitelist user_com_or_cog (config self) then
    returns self [say ("That " +:+ user +:+ " is already in the whitelist.")]
  else
    let user := if is_user user_com_or_cog then user +:+ " id" else user in
    returns (set_config (whitelist_append user_com_or_cog) self)
      [say ("Done. Added `" +:+ to_add_str user_com_or_cog +:+ "` to the whitelist as a " +:+
            user +:+ ".")].

(** Lines 229-246, run from start to end likewise. *)
Definition whitelist_remove (self : Cog) (user_com_or_cog : UserOrCommandCog) : Result :=
  let user := _get_user_or_com user_com_or_cog in
  if negb (in_whitelist user_com_or_cog (config self)) then
    returns self [say ("That " +:+ user +:+ " is not in the whitelist.")]
  else
    let user := if is_user user_com_or_cog then user +:+ " id" else user in
    returns (set_config (whitelist_drop user_com_or_cog) self)
      [say ("Done. Removed `" +:+ to_add_str user_com_or_cog +:+ "` from the whitelist as a " +:+
            user)].

(** The [message] argument after [NoneConverter] (of [utils.py]; the
    docstring of the command: type [None] to reset) is a string or [None].
    Its truth value: [None] and the empty string are false. *)
Definition truthy (message_arg : option string) : bool :=
  match message_arg with
  | None => false
  | Some m => negb (String.eqb m EmptyString)
  end.

(** Lines 279-290, the body.  [message or _config_structure["message"]]
    evaluates its right operand only when [message] is false. *)
Definition message_set (self : Cog) (message_arg : option string) : Result :=
  let set_reset := if truthy message_arg then "set" else "reset" in
  let actual :=
    match message_arg with
    | Some m =>
        if truthy (Some m) then inr (PyStr m) else getitem _config_structure "message"
    | None => getitem _config_structure "message"
    end in
  match actual with
  | inl e => raises e self []
  | inr actual =>
      returns (set_config (with_message actual) self)
        [say ("The message has been " +:+ set_reset)]
  end.

(** Lines 48-51: the check [enabled] that guards the message-set command. *)
Definition check_enabled (self : Cog) : bool := message_enabled (config self).

(** The message-set command as the framework invokes it: line 277. *)
Definition invoke_message_set (self : Cog) (message_arg : option string) : Result :=
  if check_enabled self then message_set self message_arg
  else raises CheckFailure self [].

(** Lines 292-298. *)
Definition message_enable (self : Cog) : Result :=
  let data := message_enabled (config self) in
  let toggle := if data then "disabled" else "enabled" in
  returns (set_config (with_message_enabled (negb data)) self)
    [say ("The warning message has been " +:+ toggle +:+ ".")].

(** ** The error handler *)

Definition is_owner (self : Cog) (user : Z) : bool := bool_decide (user ∈ owner_ids self).

(** Lines 328-333: the guards that apply when the error was not passed on
    by a cog.  [hasattr(None, "on_error")] is false, and [ctx.cog] is the
    command's cog. *)
Definition handled_elsewhere (ctx : Context) (unhandled_by_cog : bool) : bool :=
  negb unhandled_by_cog &&
  match command ctx with
  | None => false
  | Some cmd =>
      has_on_error cmd ||
      match cog cmd with
      | Some c => has_error_handler c
      | None => false
      end
  end.

(** Lines 342-352: whether the place is ignored, so that the handler
    returns, and the debug lines logged on the way.  A context without a
    channel has the string "No channel found." for [cid], which is never
    looked up. *)
Definition ignored_place (self : Cog) (ctx : Context) : bool * list event :=
  match guild ctx with
  | Some gid =>
      let cid := channel ctx in
      if bool_decide (gid ∈ ignore_guilds (config self)) ||
         match cid with
         | Some c => bool_decide (c ∈ ignore_channels (config self))
         | None => false
         end
      then (true, [LogDebug "In a guild"; LogDebug "Ignored tbh"])
      else (false, [LogDebug "In a guild"])
  | None => (false, [])
  end.

(** Lines 362-368: the user's dictionary is created on the first error,
    a missing key is set to 1 ([KeyError]), a number is incremented, and
    [+= 1] on a dictionary is a [TypeError]. *)
Definition count_error (cache : gmap Z (gmap string entry)) (uid : Z) (key : string)
    : exn + gmap Z (gmap string entry) :=
  match cache !! uid with
  | None => inr (<[uid := {[ key := Count 1 ]}]> cache)
  | Some d =>
      match d !! key with
      | None => inr (<[uid := <[key := Count 1]> d]> cache)
      | Some (Count n) => inr (<[uid := <[key := Count (n + 1)]> d]> cache)
      | Some (Errors _) => inl TypeError
      end
  end.

(** Line 371: [(am := ...get(ctx.command.name)) and am >= amount], with the
    value of [am] when the test holds. *)
Definition reached (cache : gmap Z (gmap string entry)) (uid : Z) (key : string)
    (threshold : Z) : exn + option Z :=
  match cache !! uid with
  | None => inl (KeyError (pretty uid))
  | Some d =>
      match d !! key with
      | None => inr None
      | Some (Count am) =>
          if bool_decide (am ≠ 0) && bool_decide (threshold ≤ am) then inr (Some am) else inr None
      | Some (Errors e) =>
          if bool_decide (e = ∅) then inr None else inl TypeError
      end
  end.

(** Lines 359-377: the warning, the count and the threshold test, for an
    error that passed the guards; [evs] is what was logged before, and
    [key] is the source's local [name], the qualified name of line 354. *)
Definition warn_and_count (self : Cog) (user : Z) (cmd : Command) (evs : list event)
    : Result :=
  let key := qualified_name cmd in
  let evs :=
    if message_enabled (config self) then evs ++ [Send (message (config self))]
    else evs in
  match count_error (_cache self) user key with
  | inl e => raises e self evs
  | inr cache =>
      let self := set_cache cache self in
      match reached (_cache self) user (name cmd) (amount (config self)) with
      | inl e => raises e self evs
      | inr None => returns self evs
      | inr (Some am) =>
          returns (set_blacklist ({[ user ]} ∪ blacklist self) self)
            (evs ++ [LogInfo user am; Dispatch "error_blacklist" user cmd])
      end
  end.

(** Lines 324-358, then [warn_and_count]. *)
Definition on_command_error (self : Cog) (ctx : Context) (err : Error)
    (unhandled_by_cog : bool) : Result :=
  if handled_elsewhere ctx unhandled_by_cog then returns self [] else
  match err, command ctx with
  | OtherError, _ => returns self []
  | CommandInvokeError, None => raises AttributeError self []
  | CommandInvokeError, Some cmd =>
      match cog cmd with
      | None => returns self []
      | Some _ =>
          let user := author ctx in
          if negb (enabled (config self)) || is_owner self user then returns self [] else
          let (ignored, evs) := ignored_place self ctx in
          if ignored then returns self evs else
          let key := qualified_name cmd in
          if bool_decide (key ∈ whitelist_commands (config self)) then returns self evs else
          if bool_decide (user ∈ whitelist_users (config self)) then returns self evs else
          warn_and_count self user cmd evs
      end
  end.

(** ** The daily task *)

(** Lines 387-388: each user with stored data is cleared in turn. *)
Definition clear_all (stored : gmap Z (gmap string Z)) : gmap Z (gmap string Z) :=
  foldl (λ m user, delete user m) stored (fst <$> map_to_list stored).

(** Lines 379-389: one run of the loop body. *)
Definition clear_cache (self : Cog) : Result :=
  if first_run self then returns (set_first_run false self) [] else
  if negb (clear_usage (config self)) then returns (set_task_running false self) [] else
  returns (set_users (clear_all (users self)) self) [LogDebug "Cleared user usage"].

(** ** Operations on a loaded cog *)

(** What can happen to a loaded instance: an error event, a run of the
    daily task, or one of the owner's settings commands.  The display
    commands (version, the two lists, showsettings) only read. *)
Inductive op : Type :=
| OnCommandError (ctx : Context) (err : Error) (unhandled_by_cog : bool)
| ClearCacheRun
| IgnoreAdd (t : ChannelOrGuild)
| IgnoreRemove (t : ChannelOrGuild)
| Enable
| ClearUsage (toggle : bool)
| Amount (arg : Z)
| WhitelistAdd (t : UserOrCommandCog)
| WhitelistRemove (t : UserOrCommandCog)
| MessageSet (message_arg : option string)
| MessageEnable.

(** The loop body runs only while the task is running. *)
Definition run_op (o : op) (self : Cog) : Result :=
  match o with
  | OnCommandError ctx err unhandled_by_cog => on_command_error self ctx err unhandled_by_cog
  | ClearCacheRun => if task_running self then clear_cache self else returns self []
  | IgnoreAdd t => ignore_add self t
  | IgnoreRemove t => ignore_remove self t
  | Enable => error_blacklist_enable self
  | ClearUsage toggle => error_blacklist_clear_usage self toggle
  | Amount arg => invoke_amount self arg
  | WhitelistAdd t => whitelist_add self t
  | WhitelistRemove t => whitelist_remove self t
  | MessageSet m => invoke_message_set self m
  | MessageEnable => message_enable self
  end.

Definition run (ops : list op) (self : Cog) : Cog :=
  foldl (λ s o, state (run_op o s)) self ops.

(** Unloading an instance and loading a new one over the same host. *)
Definition reload (self : Cog) : Cog :=
  let old := cog_unload self in
  cog_load (__init__ (config old) (users old) (blacklist old) (owner_ids old)).

Inductive lifecycle : Type :=
| Run (o : op)
| Reload.

Definition life_step (self : Cog) (l : lifecycle) : Cog :=
  match l with
  | Run o => state (run_op o self)
  | Reload => reload self
  end.

(** A first installation: nothing stored yet. *)
Definition install (bot_blacklist bot_owners : gset Z) : Cog :=
  cog_load (__init__ register_global ∅ bot_blacklist bot_owners).

Definition history (tr : list lifecycle) (bot_blacklist bot_owners : gset Z) : Cog :=
  foldl life_step (install bot_blacklist bot_owners) tr.

(** ** Observations used in the statements *)

(** The number the cache holds for a user and a key; an absent user or key
    counts as zero, and so does the stored ["errors"] dictionary. *)
Definition counter (cache : gmap Z (gmap string entry)) (uid : Z) (key : string) : Z :=
  match cache !! uid with
  | Some d => match d !! key with Some (Count n) => n | _ => 0 end
  | None => 0
  end.

(** A cache whose entries are all numbers. *)
Definition counts_only (cache : gmap Z (gmap string entry)) : Prop :=
  ∀ uid d key e, cache !! uid = Some d → d !! key ≠ Some (Errors e).

Definition is_debug (e : event) : bool :=
  match e with LogDebug _ => true | _ => false end.

Definition is_dispatch (e : event) : bool :=
  match e with Dispatch _ _ _ => true | _ => false end.

(** The errors that pass every guard of lines 328-358 and reach the
    warning and the counting code, with their command. *)
Definition watched (self : Cog) (ctx : Context) (err : Error) (unhandled_by_cog : bool)
    : option Command :=
  match err, command ctx with
  | CommandInvokeError, Some cmd =>
      if handled_elsewhere ctx unhandled_by_cog then None
      else if negb (bool_decide (is_Some (cog cmd))) then None
      else if negb (enabled (config self)) then None
      else if is_owner self (author ctx) then None
      else if fst (ignored_place self ctx) then None
      else if bool_decide (qualified_name cmd ∈ whitelist_commands (config self)) then None
      else if bool_decide (author ctx ∈ whitelist_users (config self)) then None
      else Some cmd
  | _, _ => None
  end.

(** The counted errors: those that pass the guards and whose entry in the
    cache can be incremented or created (lines 363, 366 and 368). *)
Definition counted (self : Cog) (ctx : Context) (err : Error) (unhandled_by_cog : bool)
    : option Command :=
  match watched self ctx err unhandled_by_cog with
  | Some cmd =>
      match count_error (_cache self) (author ctx) (qualified_name cmd) with
      | inr _ => Some cmd
      | inl _ => None
      end
  | None => None
  end.

(** ** Sample invocations *)

Definition fun_cog : CogInfo := {| cog_qualified_name := "Fun"; has_error_handler := false |}.

(** A top-level command and a subcommand of a group. *)
Definition ping : Command :=
  {| name := "ping"; qualified_name := "ping"; cog := Some fun_cog; has_on_error := false |}.
Definition grp_sub : Command :=
  {| name := "sub"; qualified_name := "grp sub"; cog := Some fun_cog; has_on_error := false |}.
Definition sub : Command :=
  {| name := "sub"; qualified_name := "sub"; cog := Some fun_cog; has_on_error := false |}.

(** User 42 in channel 7 of guild 3, and in the private channel 9. *)
Definition in_guild (cmd : Command) : Context :=
  {| command := Some cmd; author := 42; guild := Some 3; channel := Some 7 |}.

(** The owner, user 1, in the same guild channel. *)
Definition owner_ctx : Context :=
  {| command := Some ping; author := 1; guild := Some 3; channel := Some 7 |}.

(** A first installation on a bot owned by user 1, after the given commands. *)
Definition installed (ops : list op) : Cog := run ops (install ∅ {[ 1 ]}).

Definition fails (cmd : Command) : op := OnCommandError (in_guild cmd) CommandInvokeError false.

(** An instance loaded over a host that holds user data. *)
Definition stored_sample : gmap Z (gmap string Z) := {[ 42 := {[ "ping" := 3 ]} ]}.
Definition loaded_sample : Cog := cog_load (__init__ register_global stored_sample ∅ {[ 1 ]}).

(** ** The display commands *)



Section display.
(** [str] of a list or a dictionary, which no command stores. *)
Variable container_str : pyobj → string.







End display.

(** ** More observations *)

(** The same error delivered [n] times in a row. *)
Definition repeat_error (n : nat) (ctx : Context) (err : Error) (unhandled_by_cog : bool)
    (self : Cog) : Cog :=
  Nat.iter n (λ s, state (on_command_error s ctx err unhandled_by_cog)) self.

(** Neither ignore list holds an id twice. *)
Definition ignore_lists_distinct (c : Settings) : Prop :=
  NoDup (ignore_guilds c) ∧ NoDup (ignore_channels c).

(** ** Overlapping invocations of the whitelist commands *)

(** [whitelist_add] and [whitelist_remove] above are the commands run from
    start to end with no other invocation in between.  The source tests
    the list (lines 222 and 240), awaits [ctx.send] (lines 225 and 243)
    and only then changes the list (lines 226-227 and 245-246), without
    testing again; so another invocation can run between the two halves.
    The ignore commands test and change their list inside one
    [async with] block. *)

(** Lines 219-225: the first half of [whitelist_add].  It only reads the
    settings: whether the invocation goes on to append, and its reply. *)
Definition whitelist_add_test (self : Cog) (user_com_or_cog : UserOrCommandCog)
    : bool * list event :=
  let user := _get_user_or_com user_com_or_cog in
  if in_whitelist user_com_or_cog (config self) then
    (false, [say ("That " +:+ user +:+ " is already in the whitelist.")])
  else
    let user := if is_user user_com_or_cog then user +:+ " id" else user in
    (true, [say ("Done. Added `" +:+ to_add_str user_com_or_cog +:+
                 "` to the whitelist as a " +:+ user +:+ ".")]).

(** Lines 226-227: the second half, the append. *)
Definition whitelist_add_append (self : Cog) (user_com_or_cog : UserOrCommandCog) : Cog :=
  set_config (whitelist_append user_com_or_cog) self.

(** Lines 245-246: the second half of [whitelist_remove]; [f.remove] of an
    entry that is gone by then raises [ValueError], here [None]. *)
Definition whitelist_remove_drop (self : Cog) (user_com_or_cog : UserOrCommandCog)
    : option Cog :=
  if in_whitelist user_com_or_cog (config self)
  then Some (set_config (whitelist_drop user_com_or_cog) self)
  else None.

(** What can happen to the cog when invocations overlap: a whole
    operation or a reload, or the second half of a whitelist command
    whose test ran earlier.  The first halves change nothing. *)
Inductive interleaved : Type :=
| Whole (l : lifecycle)
| AppendHalf (t : UserOrCommandCog)
| DropHalf (t : UserOrCommandCog).

Definition interleaved_step (self : Cog) (i : interleaved) : Cog :=
  match i with
  | Whole l => life_step self l
  | AppendHalf t => whitelist_add_append self t
  | DropHalf t => default self (whitelist_remove_drop self t)
  end.

Definition interleaved_history (tr : list interleaved) (bot_blacklist bot_owners : gset Z)
    : Cog :=
  foldl interleaved_step (install bot_blacklist bot_owners) tr.



Definition is_send (e : event) : bool :=
  match e with Send _ => true | _ => false end.

(** The handler ignores an error: the state stays as it is and nothing
    but debug lines is emitted. *)
Definition ignores (self : Cog) (ctx : Context) (err : Error) (unhandled_by_cog : bool)
    : Prop :=
  state (on_command_error self ctx err unhandled_by_cog) = self ∧
  Forall (λ e, is_debug e = true) (events (on_command_error self ctx err unhandled_by_cog)).

(** A command that is called like the key of the stored user data. *)
Definition errors_cmd : Command :=
  {| name := "errors"; qualified_name := "errors"; cog := Some fun_cog;
     has_on_error := false |}.

(** * Properties *)

(** ** The guards of the handler *)

Lemma ignored_place_debug (self : Cog) (ctx : Context) :
  Forall (λ e, is_debug e = true) (snd (ignored_place self ctx)).
Proof.
  unfold ignored_place.
  destruct (guild ctx) as [gid|]; simpl; [|constructor].
  destruct (_ || _); simpl; repeat constructor.
Qed.

(** An error that is stopped by a guard changes nothing and sends nothing: at
    most the two debug lines are logged. *)
Lemma unwatched_no_effect (self : Cog) (ctx : Context) (err : Error) (unhandled : bool) :
  watched self ctx err unhandled = None →
  state (on_command_error self ctx err unhandled) = self ∧
  Forall (λ e, is_debug e = true) (events (on_command_error self ctx err unhandled)).
Proof.
  unfold watched, on_command_error.
  destruct (handled_elsewhere ctx unhandled) eqn:Hh.
  { intros _. split; [done | constructor]. }
  destruct err; [|intros _; split; [done | constructor]].
  destruct (command ctx) as [cmd|]; [|intros _; split; [done | constructor]].
  destruct (cog cmd) as [c|]; simpl; [|intros _; split; [done | constructor]].
  destruct (enabled (config self)); simpl; [|intros _; split; [done | constructor]].
  destruct (is_owner self (author ctx)); simpl; [intros _; split; [done | constructor]|].
  pose proof (ignored_place_debug self ctx) as Hdbg.
  destruct (ignored_place self ctx) as [ignored evs]; simpl in *.
  destruct ignored; [intros _; by split|].
  destruct (bool_decide (qualified_name cmd ∈ _)); [intros _; by split|].
  destruct (bool_decide (author ctx ∈ _)); [intros _; by split|].
  discriminate.
Qed.

(** An error that passes the guards is handled by [warn_and_count]. *)
Lemma watched_runs_count (self : Cog) (ctx : Context) (err : Error) (unhandled : bool)
    (cmd : Command) :
  watched self ctx err unhandled = Some cmd →
  command ctx = Some cmd ∧
  on_command_error self ctx err unhandled =
    warn_and_count self (author ctx) cmd (snd (ignored_place self ctx)).
Proof.
  unfold watched, on_command_error.
  destruct err; [|discriminate].
  destruct (command ctx) as [cmd'|]; [|discriminate].
  destruct (handled_elsewhere ctx unhandled); [discriminate|].
  destruct (cog cmd') as [c|]; simpl; [|discriminate].
  destruct (enabled (config self)); simpl; [|discriminate].
  destruct (is_owner self (author ctx)); simpl; [discriminate|].
  destruct (ignored_place self ctx) as [ignored evs]; simpl.
  destruct ignored; [discriminate|].
  destruct (bool_decide (qualified_name cmd' ∈ _)); [discriminate|].
  destruct (bool_decide (author ctx ∈ _)); [discriminate|].
  intros [= ->]. done.
Qed.

(** C7: while the enabled flag is false the handler does nothing for any
    error: the state is unchanged (no counter changes, nobody is
    blacklisted) and no event is emitted (no warning message). *)
Theorem disabled_handler_does_nothing (self : Cog) (ctx : Context) (err : Error)
    (unhandled : bool) :
  enabled (config self) = false →
  state (on_command_error self ctx err unhandled) = self ∧
  events (on_command_error self ctx err unhandled) = [].
Proof.
  intros Hoff. unfold on_command_error.
  destruct (handled_elsewhere ctx unhandled); [done|].
  destruct err; [|done].
  destruct (command ctx) as [cmd|]; [|done].
  destruct (cog cmd); [|done].
  by rewrite Hoff.
Qed.

Lemma disabled_handler_does_nothing_witness :
  state (on_command_error (installed []) (in_guild ping) CommandInvokeError false)
    = installed [] ∧
  events (on_command_error (installed []) (in_guild ping) CommandInvokeError false) = [].
Proof.
  apply (disabled_handler_does_nothing (installed []) (in_guild ping) CommandInvokeError false).
  reflexivity.
Defined.

(** C8: an error whose author is an owner of the bot changes no state:
    it is not counted, no warning is sent and nobody is blacklisted,
    whatever the counters hold. *)
Theorem owner_errors_change_nothing (self : Cog) (ctx : Context) (err : Error)
    (unhandled : bool) :
  author ctx ∈ owner_ids self →
  state (on_command_error self ctx err unhandled) = self ∧
  events (on_command_error self ctx err unhandled) = [].
Proof.
  intros Hown. unfold on_command_error.
  destruct (handled_elsewhere ctx unhandled); [done|].
  destruct err; [|done].
  destruct (command ctx) as [cmd|]; [|done].
  destruct (cog cmd); [|done].
  unfold is_owner. rewrite (bool_decide_eq_true_2 _ Hown).
  by rewrite orb_true_r.
Qed.

Lemma owner_errors_change_nothing_witness :
  state (on_command_error (installed [Enable]) owner_ctx CommandInvokeError false)
    = installed [Enable] ∧
  events (on_command_error (installed [Enable]) owner_ctx CommandInvokeError false) = [].
Proof.
  apply (owner_errors_change_nothing (installed [Enable]) owner_ctx CommandInvokeError false).
  vm_compute. reflexivity.
Defined.




(** C9: the table has no top-level ["message"] key, so the message-set
    body with the reset value [None] raises [KeyError] before anything is
    stored or sent; the stored message stays what it was, also when the
    command is invoked through its check. *)
Theorem message_reset_raises_key_error (self : Cog) :
  getitem _config_structure "message" = inl (KeyError "message") ∧
  message_set self None = raises (KeyError "message") self [] ∧
  state (invoke_message_set self None) = self ∧
  message (config (state (invoke_message_set self None))) = message (config self).
Proof.
  assert (Hbody : message_set self None = raises (KeyError "message") self []) by reflexivity.
  assert (Hinv : state (invoke_message_set self None) = self).
  { unfold invoke_message_set. destruct (check_enabled self); [by rewrite Hbody | done]. }
  split; [reflexivity|]. split; [exact Hbody|]. split; [exact Hinv|]. by rewrite Hinv.
Qed.

(** ** The whitelists *)

(** The command and the user whitelist are honoured: such an error changes
    nothing and sends nothing. *)
Lemma whitelisted_command_or_user_ignored (self : Cog) (ctx : Context) (err : Error)
    (unhandled : bool) (cmd : Command) :
  command ctx = Some cmd →
  qualified_name cmd ∈ whitelist_commands (config self) ∨
    author ctx ∈ whitelist_users (config self) →
  state (on_command_error self ctx err unhandled) = self ∧
  Forall (λ e, is_debug e = true) (events (on_command_error self ctx err unhandled)).
Proof.
  intros Hcmd Hwl. apply unwatched_no_effect.
  unfold watched. rewrite Hcmd.
  destruct err; [|done].
  destruct Hwl as [Hin | Hin]; rewrite (bool_decide_eq_true_2 _ Hin);
    repeat (case_match; try done).
Qed.

(** C2, on the code: with the cog ["Fun"] in the cog whitelist, an error of
    its command [ping] is not ignored: the warning is sent and the error is
    counted.  The handler never reads the cog whitelist. *)
Theorem whitelisted_cog_is_not_ignored :
  let self := installed [Enable; WhitelistAdd (ACog "Fun")] in
  let r := on_command_error self (in_guild ping) CommandInvokeError false in
  whitelist_cogs (config self) = ["Fun"] ∧
  (cog_qualified_name <$> cog ping) = Some "Fun" ∧
  events r = [LogDebug "In a guild"; Send (message (config self))] ∧
  counter (_cache self) 42 "ping" = 0 ∧
  counter (_cache (state r)) 42 "ping" = 1.
Proof. vm_compute. repeat split; reflexivity. Qed.

(** ** The cache and the stored user data *)

(** The handler never writes the stored user data, the settings or the
    instance's flags. *)
Lemma handler_frame (self : Cog) (ctx : Context) (err : Error) (unhandled : bool) :
  let self' := state (on_command_error self ctx err unhandled) in
  users self' = users self ∧ config self' = config self ∧
  first_run self' = first_run self ∧ task_running self' = task_running self ∧
  owner_ids self' = owner_ids self.
Proof.
  destruct (watched self ctx err unhandled) as [cmd|] eqn:Hc.
  - apply watched_runs_count in Hc as [_ ->].
    unfold warn_and_count. repeat (case_match; simpl; try done).
  - apply unwatched_no_effect in Hc as [-> _]. done.
Qed.

(** ** The daily task *)

Lemma delete_all_empty {V} (keys : list Z) (m : gmap Z V) :
  (∀ k, is_Some (m !! k) → k ∈ keys) →
  foldl (λ m user, delete user m) m keys = ∅.
Proof.
  revert m. induction keys as [|k keys IH]; intros m Hkeys; simpl.
  - apply map_empty. intros i.
    destruct (m !! i) eqn:Hi; [|done].
    specialize (Hkeys i (mk_is_Some _ _ Hi)). by apply elem_of_nil in Hkeys.
  - apply IH. intros i Hi.
    destruct (decide (i = k)) as [->|Hne].
    + rewrite lookup_delete_eq in Hi. by destruct Hi.
    + rewrite lookup_delete_ne in Hi by done.
      specialize (Hkeys i Hi). apply elem_of_cons in Hkeys as [?|?]; done.
Qed.

Lemma clear_all_empty (stored : gmap Z (gmap string Z)) : clear_all stored = ∅.
Proof.
  unfold clear_all. apply delete_all_empty.
  intros k [v Hv]. apply list_elem_of_fmap.
  exists (k, v). split; [done|]. by apply elem_of_map_to_list.
Qed.

(** C4, counterexample: the first run of an instance resets nothing
    although the clear-usage flag is enabled. *)
Lemma first_run_clears_nothing :
  let r := clear_cache loaded_sample in
  clear_usage (config loaded_sample) = true ∧
  users loaded_sample = stored_sample ∧
  users (state r) = stored_sample ∧
  users (state r) ≠ ∅ ∧
  _cache (state r) = _cache loaded_sample.
Proof.
  simpl. repeat split.
  intros Hempty.
  assert (Hl : stored_sample !! 42 = Some {[ "ping" := 3 ]}) by (vm_compute; reflexivity).
  unfold loaded_sample, cog_load, __init__ in Hempty. simpl in Hempty.
  rewrite Hempty in Hl. discriminate.
Qed.

(** C4, amended: a run of the daily task other than an instance's first
    empties the stored data of every user if the clear-usage flag is
    enabled; if the flag is disabled the run changes no user data, stored
    or cached, and stops the task.  An instance's first run resets
    nothing, whatever the flag: it only clears the first-run marker. *)
Theorem clear_cache_every_run (self : Cog) :
  if first_run self
  then state (clear_cache self) = set_first_run false self ∧
       users (state (clear_cache self)) = users self ∧
       _cache (state (clear_cache self)) = _cache self
  else if clear_usage (config self)
       then users (state (clear_cache self)) = ∅ ∧
            all_users (state (clear_cache self)) = ∅
       else users (state (clear_cache self)) = users self ∧
            _cache (state (clear_cache self)) = _cache self ∧
            task_running (state (clear_cache self)) = false.
Proof.
  unfold clear_cache.
  destruct (first_run self); [done|].
  destruct (clear_usage (config self)); simpl.
  - unfold all_users; simpl. rewrite clear_all_empty. split; [done|]. apply fmap_empty.
  - done.
Qed.

Lemma clear_cache_every_run_witness :
  let flag_off := cog_load (__init__ (with_clear_usage false register_global)
                              stored_sample ∅ {[ 1 ]}) in
  (clear_usage (config loaded_sample) = true ∧
   users (state (clear_cache loaded_sample)) = stored_sample) ∧
  (clear_usage (config flag_off) = false ∧
   users (state (clear_cache flag_off)) = stored_sample) ∧
  users (state (clear_cache (state (clear_cache loaded_sample)))) = ∅ ∧
  users (state (clear_cache (set_first_run false flag_off))) = stored_sample.
Proof.
  split; [split; [reflexivity|]|split; [split; [reflexivity|]|split]].
  - apply (clear_cache_every_run loaded_sample).
  - apply (clear_cache_every_run
             (cog_load (__init__ (with_clear_usage false register_global)
                          stored_sample ∅ {[ 1 ]}))).
  - apply (clear_cache_every_run (state (clear_cache loaded_sample))).
  - apply (clear_cache_every_run
             (set_first_run false
                (cog_load (__init__ (with_clear_usage false register_global)
                             stored_sample ∅ {[ 1 ]})))).
Defined.

(** ** Counters *)

Section count_error.
Variables (cache cache' : gmap Z (gmap string entry)) (uid : Z) (key : string).
Hypothesis Hcount : count_error cache uid key = inr cache'.

Lemma count_error_adds_one : counter cache' uid key = counter cache uid key + 1.
Proof.
  revert Hcount. unfold count_error, counter.
  destruct (cache !! uid) as [d|] eqn:Hd.
  - destruct (d !! key) as [[n|e]|] eqn:Hk; intros [= <-];
      rewrite lookup_insert_eq, lookup_insert_eq; lia.
  - intros [= <-]. rewrite lookup_insert_eq, lookup_singleton_eq. lia.
Qed.

Lemma count_error_other (uid' : Z) (key' : string) :
  (uid', key') ≠ (uid, key) →
  counter cache' uid' key' = counter cache uid' key'.
Proof.
  intros Hne. revert Hcount. unfold count_error, counter.
  destruct (decide (uid' = uid)) as [->|Hu].
  - assert (Hk : key ≠ key') by congruence.
    destruct (cache !! uid) as [d|] eqn:Hd.
    + destruct (d !! key) as [[n|e]|] eqn:Hkey; intros [= <-];
        rewrite lookup_insert_eq, lookup_insert_ne; done.
    + intros [= <-]. rewrite lookup_insert_eq, lookup_singleton_ne; done.
  - destruct (cache !! uid) as [d|] eqn:Hd.
    + destruct (d !! key) as [[n|e]|] eqn:Hkey; intros [= <-];
        rewrite lookup_insert_ne; done.
    + intros [= <-]. rewrite lookup_insert_ne; done.
Qed.

Lemma count_error_step (uid' : Z) (key' : string) :
  counter cache' uid' key' = counter cache uid' key' ∨
  counter cache' uid' key' = counter cache uid' key' + 1.
Proof.
  destruct (decide ((uid', key') = (uid, key))) as [[= -> ->]|Hne].
  - right. apply count_error_adds_one.
  - left. by apply count_error_other.
Qed.
End count_error.

(** The cache after the handler: untouched, or the result of counting. *)
Lemma handler_cache (self : Cog) (ctx : Context) (err : Error) (unhandled : bool) :
  match counted self ctx err unhandled with
  | Some cmd =>
      count_error (_cache self) (author ctx) (qualified_name cmd) =
        inr (_cache (state (on_command_error self ctx err unhandled)))
  | None => _cache (state (on_command_error self ctx err unhandled)) = _cache self
  end.
Proof.
  unfold counted.
  destruct (watched self ctx err unhandled) as [cmd|] eqn:Hw.
  - apply watched_runs_count in Hw as [_ ->].
    unfold warn_and_count.
    destruct (count_error _ _ _) as [e|cache'] eqn:Hcount; [done|].
    simpl. repeat (case_match; simpl; try done).
  - apply unwatched_no_effect in Hw as [-> _]. done.
Qed.

(** Only the handler writes the cache. *)
Lemma run_op_cache (o : op) (self : Cog) :
  (∀ ctx err unhandled, o ≠ OnCommandError ctx err unhandled) →
  _cache (state (run_op o self)) = _cache self.
Proof.
  intros Hnot. destruct o; simpl.
  - by destruct (Hnot ctx err unhandled_by_cog).
  - unfold clear_cache. repeat (case_match; simpl; try done).
  - unfold ignore_add. by case_match.
  - unfold ignore_remove. by case_match.
  - done.
  - unfold error_blacklist_clear_usage. by case_match.
  - unfold invoke_amount, error_blacklist_amount. repeat (case_match; simpl; try done).
  - unfold whitelist_add. by case_match.
  - unfold whitelist_remove. by case_match.
  - unfold invoke_message_set, message_set. repeat (case_match; simpl; try done).
  - done.
Qed.

Lemma run_op_counter_step (o : op) (self : Cog) (uid : Z) (key : string) :
  counter (_cache (state (run_op o self))) uid key = counter (_cache self) uid key ∨
  counter (_cache (state (run_op o self))) uid key = counter (_cache self) uid key + 1.
Proof.
  destruct o; try (left; rewrite run_op_cache; [done | intros; discriminate]).
  simpl. pose proof (handler_cache self ctx err unhandled_by_cog) as Hc.
  destruct (counted self ctx err unhandled_by_cog) as [cmd|].
  - by apply (count_error_step _ _ _ _ Hc).
  - left. by rewrite Hc.
Qed.

(** The stored user data changes only when a run of the task empties it. *)
Lemma run_op_users (o : op) (self : Cog) :
  users (state (run_op o self)) = users self ∨
  (o = ClearCacheRun ∧ users (state (run_op o self)) = ∅).
Proof.
  destruct o; simpl.
  - left. apply handler_frame.
  - unfold clear_cache. repeat (case_match; simpl; try (by left)).
    right. split; [done|]. apply clear_all_empty.
  - left. unfold ignore_add. by case_match.
  - left. unfold ignore_remove. by case_match.
  - by left.
  - left. unfold error_blacklist_clear_usage. by case_match.
  - left. unfold invoke_amount, error_blacklist_amount. repeat (case_match; simpl; try done).
  - left. unfold whitelist_add. by case_match.
  - left. unfold whitelist_remove. by case_match.
  - left. unfold invoke_message_set, message_set. repeat (case_match; simpl; try done).
  - by left.
Qed.

Lemma run_counter_mono (ops : list op) (self : Cog) (uid : Z) (key : string) :
  counter (_cache self) uid key ≤ counter (_cache (run ops self)) uid key.
Proof.
  revert self. induction ops as [|o ops IH]; intros self; simpl.
  - unfold run; simpl. lia.
  - unfold run in *; simpl. etrans; [|apply IH].
    destruct (run_op_counter_step o self uid key) as [-> | ->]; lia.
Qed.

(** On a loaded cog no operation lowers a counter: over any sequence of
    errors, task runs and settings commands no counter goes down; one
    operation leaves a counter as it is or raises it by one; a counted
    error raises the counter of its user and command by exactly one and
    leaves every other counter alone; and the stored user data changes
    only when a run of the daily task empties it. *)
Theorem counters_only_increase (ops : list op) (self : Cog) (uid : Z) (key : string) :
  counter (_cache self) uid key ≤ counter (_cache (run ops self)) uid key ∧
  (∀ o,
     counter (_cache (state (run_op o self))) uid key = counter (_cache self) uid key ∨
     counter (_cache (state (run_op o self))) uid key = counter (_cache self) uid key + 1) ∧
  (∀ ctx err unhandled cmd,
     counted self ctx err unhandled = Some cmd →
     let self' := state (on_command_error self ctx err unhandled) in
     counter (_cache self') (author ctx) (qualified_name cmd) =
       counter (_cache self) (author ctx) (qualified_name cmd) + 1 ∧
     ((uid, key) ≠ (author ctx, qualified_name cmd) →
      counter (_cache self') uid key = counter (_cache self) uid key)) ∧
  (∀ o,
     users (state (run_op o self)) = users self ∨
     (o = ClearCacheRun ∧ users (state (run_op o self)) = ∅)).
Proof.
  split; [apply run_counter_mono|].
  split; [intros o; apply run_op_counter_step|].
  split; [|intros o; apply run_op_users].
  intros ctx err unhandled cmd Hc.
  pose proof (handler_cache self ctx err unhandled) as Hcache.
  rewrite Hc in Hcache. simpl. split.
  - by apply count_error_adds_one.
  - intros Hne. by apply (count_error_other _ _ _ _ Hcache).
Qed.

Lemma counters_only_increase_witness :
  let self := installed [Enable; fails ping] in
  counted self (in_guild ping) CommandInvokeError false = Some ping ∧
  counter (_cache self) 42 "ping" = 1 ∧
  counter (_cache (state (on_command_error self (in_guild ping) CommandInvokeError false)))
    42 "ping" = 1 + 1.
Proof.
  split; [reflexivity|]. split; [reflexivity|].
  destruct (counters_only_increase [] (installed [Enable; fails ping]) 42 "ping")
    as (_ & _ & Hcounted & _).
  destruct (Hcounted (in_guild ping) CommandInvokeError false ping) as [Hone _].
  - reflexivity.
  - exact Hone.
Defined.

(** C5, on the code: after two counted errors the counter of user 42 for
    [ping] is 2; a reload of the cog brings it back to 0 although the user
    was not blacklisted and no run of the daily task cleared anything.
    The counts live only in the cache, and [cog_load] fills the cache from
    the stored user data, which holds none of them. *)
Theorem reload_lowers_counters :
  let before := history [Run Enable; Run (fails ping); Run (fails ping)] ∅ {[ 1 ]} in
  let after := history [Run Enable; Run (fails ping); Run (fails ping); Reload] ∅ {[ 1 ]} in
  after = reload before ∧
  counter (_cache before) 42 "ping" = 2 ∧
  counter (_cache after) 42 "ping" = 0 ∧
  blacklist before = ∅ ∧ blacklist after = ∅ ∧
  users before = ∅ ∧ users after = ∅ ∧
  amount (config after) = 5.
Proof. vm_compute. repeat split; reflexivity. Qed.

(** ** What a first installation can reach *)

Lemma count_error_counts_only (cache cache' : gmap Z (gmap string entry)) (uid : Z)
    (key : string) :
  counts_only cache → count_error cache uid key = inr cache' → counts_only cache'.
Proof.
  intros Hinv Hcount uid' d' key' e Hd'.
  assert (Hnew : ∀ d0 n, d' = <[key := Count n]> d0 →
                 (∀ e0, d0 !! key' ≠ Some (Errors e0)) → d' !! key' ≠ Some (Errors e)).
  { intros d0 n -> Hd0. destruct (decide (key = key')) as [->|Hne].
    - by rewrite lookup_insert_eq.
    - rewrite lookup_insert_ne by done. apply Hd0. }
  revert Hcount Hd'. unfold count_error.
  destruct (cache !! uid) as [d|] eqn:Hd.
  - destruct (d !! key) as [[n|e0]|] eqn:Hk; intros [= <-];
      (destruct (decide (uid = uid')) as [->|Hne];
       [rewrite lookup_insert_eq; intros [= <-]; eapply Hnew; [done|];
        intros e0; by eapply Hinv
       |rewrite lookup_insert_ne by done; intros Hd'; by eapply Hinv]).
  - intros [= <-]. destruct (decide (uid = uid')) as [->|Hne].
    + rewrite lookup_insert_eq. intros [= <-].
      destruct (decide (key = key')) as [->|Hk].
      * by rewrite lookup_singleton_eq.
      * by rewrite lookup_singleton_ne.
    + rewrite lookup_insert_ne by done. intros Hd'. by eapply Hinv.
Qed.

(** Nothing is ever stored for a user, and the cache holds only numbers. *)
Lemma history_invariant (tr : list lifecycle) (bot_blacklist bot_owners : gset Z) :
  users (history tr bot_blacklist bot_owners) = ∅ ∧
  counts_only (_cache (history tr bot_blacklist bot_owners)).
Proof.
  unfold history.
  assert (Hinit : users (install bot_blacklist bot_owners) = ∅ ∧
                  counts_only (_cache (install bot_blacklist bot_owners))).
  { split; [done|]. intros uid d key e Hd. by vm_compute in Hd. }
  revert Hinit. generalize (install bot_blacklist bot_owners).
  induction tr as [|l tr IH]; intros self [Husers Hcache]; simpl; [done|].
  apply IH. destruct l as [o|]; [simpl | change (life_step self Reload) with (reload self)].
  - split.
    + destruct (run_op_users o self) as [-> | [_ ->]]; done.
    + destruct o; try (rewrite run_op_cache; [done | intros; discriminate]).
      simpl. pose proof (handler_cache self ctx err unhandled_by_cog) as Hc.
      destruct (counted self ctx err unhandled_by_cog).
      * by eapply count_error_counts_only.
      * by rewrite Hc.
  - assert (Hu : users (reload self) = ∅).
    { unfold reload, cog_load, cog_unload. repeat (case_match; simpl; try done). }
    split; [done|].
    assert (Hall : _cache (reload self) = all_users (reload self)).
    { unfold reload, cog_load, cog_unload. repeat (case_match; simpl; try done). }
    rewrite Hall. unfold all_users. rewrite Hu, fmap_empty.
    intros uid d key e Hd. by rewrite lookup_empty in Hd.
Qed.

(** So after a first installation every error that passes the guards is
    counted. *)
Lemma history_watched_counted (tr : list lifecycle) (bot_blacklist bot_owners : gset Z)
    (ctx : Context) (err : Error) (unhandled : bool) :
  counted (history tr bot_blacklist bot_owners) ctx err unhandled =
    watched (history tr bot_blacklist bot_owners) ctx err unhandled.
Proof.
  destruct (history_invariant tr bot_blacklist bot_owners) as [_ Hinv].
  unfold counted.
  destruct (watched _ ctx err unhandled) as [cmd|]; [|done].
  unfold count_error.
  destruct (_ !! author ctx) as [d|] eqn:Hd; [|done].
  destruct (d !! qualified_name cmd) as [[n|e]|] eqn:Hk; try done.
  by destruct (Hinv _ _ _ _ Hd Hk).
Qed.

(** C3, on the code: after a counted error on a fresh installation the
    cache holds the count 1 for the user while the stored user data is
    still empty, so the cache is not what [all_users] returns; and whatever
    happens after a first installation, no user data is ever stored. *)
Theorem counted_error_is_not_stored :
  (let self := installed [Enable] in
   let r := on_command_error self (in_guild ping) CommandInvokeError false in
   _cache self = all_users self ∧
   _cache (state r) !! 42 = Some {[ "ping" := Count 1 ]} ∧
   users (state r) = ∅ ∧
   all_users (state r) !! 42 = None ∧
   _cache (state r) ≠ all_users (state r)) ∧
  (∀ tr bot_blacklist bot_owners, users (history tr bot_blacklist bot_owners) = ∅).
Proof.
  split; [|intros; apply history_invariant].
  assert (H42 : _cache (state (on_command_error (installed [Enable]) (in_guild ping)
                  CommandInvokeError false)) !! 42 = Some {[ "ping" := Count 1 ]})
    by (vm_compute; reflexivity).
  assert (Hnone : all_users (state (on_command_error (installed [Enable]) (in_guild ping)
                  CommandInvokeError false)) !! 42 = None)
    by (vm_compute; reflexivity).
  simpl. repeat split; try (vm_compute; reflexivity); try assumption.
  intros Heq. rewrite Heq, Hnone in H42. discriminate.
Qed.

(** ** The threshold *)

(** After counting, the user's dictionary holds a number under the key. *)
Lemma count_error_lookup (cache cache' : gmap Z (gmap string entry)) (uid : Z) (key : string) :
  count_error cache uid key = inr cache' →
  ∃ d, cache' !! uid = Some d ∧ d !! key = Some (Count (counter cache' uid key)).
Proof.
  unfold count_error, counter.
  destruct (cache !! uid) as [d|] eqn:Hd.
  - destruct (d !! key) as [[n|e]|] eqn:Hk; intros [= <-];
      rewrite lookup_insert_eq; eexists; (split; [done|]);
      by rewrite lookup_insert_eq.
  - intros [= <-]. rewrite lookup_insert_eq. eexists. split; [done|].
    by rewrite lookup_singleton_eq.
Qed.

(** For a top-level command, whose name is its qualified name, the
    threshold works as described: a counted error blacklists the user and
    dispatches the event exactly when the new count has reached the
    amount. *)
Lemma top_level_threshold (self : Cog) (ctx : Context) (err : Error) (unhandled : bool)
    (cmd : Command) :
  counted self ctx err unhandled = Some cmd →
  name cmd = qualified_name cmd →
  0 < amount (config self) →
  let r := on_command_error self ctx err unhandled in
  if bool_decide (amount (config self) ≤
                  counter (_cache (state r)) (author ctx) (qualified_name cmd))
  then blacklist (state r) = {[ author ctx ]} ∪ blacklist self ∧
       Dispatch "error_blacklist" (author ctx) cmd ∈ events r
  else blacklist (state r) = blacklist self ∧
       Forall (λ e, is_dispatch e = false) (events r).
Proof.
  intros Hc Htop Hpos. simpl.
  pose proof (handler_cache self ctx err unhandled) as Hcount. rewrite Hc in Hcount.
  remember (_cache (state (on_command_error self ctx err unhandled))) as cache' eqn:Hcache'.
  clear Hcache'.
  assert (Hw : watched self ctx err unhandled = Some cmd).
  { revert Hc. unfold counted. repeat (case_match; try done). }
  apply watched_runs_count in Hw as [_ ->].
  assert (Hquiet : Forall (λ e, is_dispatch e = false)
                     (if message_enabled (config self)
                      then snd (ignored_place self ctx) ++ [Send (message (config self))]
                      else snd (ignored_place self ctx))).
  { assert (Forall (λ e, is_dispatch e = false) (snd (ignored_place self ctx))).
    { eapply Forall_impl; [apply ignored_place_debug|]. by intros [] ?. }
    case_match; [|done]. apply Forall_app. split; [done|]. by repeat constructor. }
  unfold warn_and_count. rewrite Hcount. simpl.
  destruct (count_error_lookup _ _ _ _ Hcount) as (d & Hd & Hk).
  unfold reached. rewrite Hd, Htop, Hk.
  case_bool_decide as Hge; simpl.
  - rewrite bool_decide_eq_true_2 by lia. simpl.
    split; [done|]. apply elem_of_app. right. apply elem_of_cons. right.
    apply list_elem_of_here.
  - rewrite andb_false_r. simpl. done.
Qed.

(** C1, on the code: with the amount set to 2, a second error of the
    subcommand ["grp sub"] brings its counter to the amount, yet the user is
    not blacklisted and no event is dispatched, because the test reads the
    counter under the command's short name ["sub"]; and a first error of
    ["grp sub"] blacklists a user who has three errors of another command
    called ["sub"]. *)
Theorem subcommand_threshold_reads_short_name :
  (let self := installed [Enable; Amount 2; fails grp_sub] in
   let r := on_command_error self (in_guild grp_sub) CommandInvokeError false in
   amount (config self) = 2 ∧
   counter (_cache (state r)) 42 "grp sub" = 2 ∧
   blacklist (state r) = ∅ ∧
   events r = [LogDebug "In a guild"; Send (message (config self))]) ∧
  (let self := installed [Enable; fails sub; fails sub; fails sub; Amount 2] in
   let r := on_command_error self (in_guild grp_sub) CommandInvokeError false in
   blacklist self = ∅ ∧
   counter (_cache (state r)) 42 "grp sub" = 1 ∧
   blacklist (state r) = {[ 42 ]} ∧
   events r = [LogDebug "In a guild"; Send (message (config self)); LogInfo 42 3;
               Dispatch "error_blacklist" 42 grp_sub]).
Proof. vm_compute. repeat split; reflexivity. Qed.

(** ** The amount *)

Lemma run_op_amount (o : op) (self : Cog) :
  2 ≤ amount (config self) → 2 ≤ amount (config (state (run_op o self))).
Proof.
  intros Hge. destruct o; simpl.
  - by destruct (handler_frame self ctx err unhandled_by_cog) as (_ & -> & _).
  - unfold clear_cache. repeat (case_match; simpl; try done).
  - unfold ignore_add. case_match; simpl; [done|]. by destruct t.
  - unfold ignore_remove. case_match; simpl; [done|]. by destruct t.
  - done.
  - unfold error_blacklist_clear_usage. by case_match.
  - unfold invoke_amount, PositiveInt, error_blacklist_amount.
    repeat (case_bool_decide; simpl; try done). lia.
  - unfold whitelist_add. case_match; simpl; [done|]. by destruct t.
  - unfold whitelist_remove. case_match; simpl; [done|]. by destruct t.
  - unfold invoke_message_set, message_set. repeat (case_match; simpl; try done).
  - done.
Qed.

Lemma history_amount (tr : list lifecycle) (bot_blacklist bot_owners : gset Z) :
  2 ≤ amount (config (history tr bot_blacklist bot_owners)).
Proof.
  unfold history.
  assert (Hinit : 2 ≤ amount (config (install bot_blacklist bot_owners)))
    by (vm_compute; discriminate).
  revert Hinit. generalize (install bot_blacklist bot_owners).
  induction tr as [|l tr IH]; intros self Hge; simpl; [done|].
  apply IH. destruct l as [o|]; simpl.
  - by apply run_op_amount.
  - unfold reload, cog_load, cog_unload. simpl.
    repeat (case_match; simpl; try done).
Qed.

(** The amount command, argument by argument. *)
Lemma invoke_amount_stores (self : Cog) (arg : Z) :
  amount (config (state (invoke_amount self arg))) =
    if bool_decide (2 ≤ arg) then arg else amount (config self).
Proof.
  unfold invoke_amount, PositiveInt, error_blacklist_amount.
  repeat (case_bool_decide; simpl; try done); lia.
Qed.

(** With an amount of at least 2, the first counted error of a user does
    not blacklist them. *)
Lemma first_error_no_blacklist (self : Cog) (ctx : Context) (err : Error) (unhandled : bool) :
  2 ≤ amount (config self) →
  (∀ key, counter (_cache self) (author ctx) key = 0) →
  blacklist (state (on_command_error self ctx err unhandled)) = blacklist self.
Proof.
  intros Hge Hzero.
  destruct (watched self ctx err unhandled) as [cmd|] eqn:Hw;
    [|by apply unwatched_no_effect in Hw as [-> _]].
  apply watched_runs_count in Hw as [_ ->].
  unfold warn_and_count.
  destruct (count_error _ _ _) as [e|cache'] eqn:Hcount; [done|]. simpl.
  destruct (reached cache' (author ctx) (name cmd) (amount (config self)))
    as [e|[am|]] eqn:Hr; simpl; try done.
  exfalso.
  assert (Hsmall : counter cache' (author ctx) (name cmd) ≤ 1).
  { destruct (count_error_step _ _ _ _ Hcount (author ctx) (name cmd)) as [-> | ->];
      rewrite Hzero; lia. }
  revert Hr Hsmall. unfold reached, counter.
  destruct (cache' !! author ctx) as [d|]; [|done].
  destruct (d !! name cmd) as [[n|e]|]; [| by case_match | done].
  case_bool_decide; simpl; [|done]. case_bool_decide; [|done]. intros _ ?. lia.
Qed.

(** C10: the default amount is 5; the amount command fails on an argument
    that is not positive, answers 1 without storing anything, and stores
    every other argument it accepts; so in every state reached from a
    first installation, through any commands, errors, task runs and
    reloads, the stored amount is at least 2, and an error of a user with
    no counted error yet never blacklists them. *)
Theorem amount_at_least_two (tr : list lifecycle) (bot_blacklist bot_owners : gset Z) :
  let self := history tr bot_blacklist bot_owners in
  amount register_global = 5 ∧
  2 ≤ amount (config self) ∧
  (∀ s arg, arg ≤ 0 → invoke_amount s arg = raises BadArgument s []) ∧
  (∀ s, state (invoke_amount s 1) = s) ∧
  (∀ s arg, 2 ≤ arg → amount (config (state (invoke_amount s arg))) = arg) ∧
  (∀ ctx err unhandled,
     (∀ key, counter (_cache self) (author ctx) key = 0) →
     blacklist (state (on_command_error self ctx err unhandled)) = blacklist self).
Proof.
  simpl. split; [reflexivity|].
  split; [apply history_amount|].
  split.
  { intros s arg Harg. unfold invoke_amount, PositiveInt.
    case_bool_decide; [lia | done]. }
  split; [done|].
  split.
  { intros s arg Harg. rewrite invoke_amount_stores. by rewrite bool_decide_eq_true_2. }
  intros ctx err unhandled Hzero.
  apply first_error_no_blacklist; [apply history_amount | done].
Qed.

Lemma amount_at_least_two_witness :
  let tr := [Run Enable; Run (Amount 1); Run (Amount 0); Run (Amount 3); Reload] in
  let self := history tr ∅ {[ 1 ]} in
  amount (config self) = 3 ∧
  invoke_amount self 0 = raises BadArgument self [] ∧
  amount (config (state (invoke_amount self 2))) = 2 ∧
  blacklist (state (on_command_error self (in_guild ping) CommandInvokeError false))
    = blacklist self.
Proof.
  destruct (amount_at_least_two
              [Run Enable; Run (Amount 1); Run (Amount 0); Run (Amount 3); Reload] ∅ {[ 1 ]})
    as (_ & _ & Hreject & _ & Hstore & Hfirst).
  split; [reflexivity|].
  split; [apply Hreject; lia|].
  split; [apply Hstore; lia|].
  apply Hfirst. intros key. reflexivity.
Defined.

(** * Further properties of the code *)

(** ** The first guards and the warning *)

(** X1: an error that is not a [CommandInvokeError], an error of a command
    without a cog, and, unless the error was passed on as unhandled, an
    error of a command with its own [on_error] or of a cog with an error
    handler, all return at once: nothing changes and nothing is emitted. *)
Theorem early_guards_return (self : Cog) (ctx : Context) (err : Error) (unhandled : bool) :
  err = OtherError ∨
  (∃ cmd, command ctx = Some cmd ∧ cog cmd = None) ∨
  (unhandled = false ∧
   ∃ cmd, command ctx = Some cmd ∧
     (has_on_error cmd = true ∨ ∃ c, cog cmd = Some c ∧ has_error_handler c = true)) →
  on_command_error self ctx err unhandled = returns self [].
Proof.
  intros [-> | [(cmd & Hcmd & Hcog) | (-> & cmd & Hcmd & Hh)]]; unfold on_command_error.
  - by destruct (handled_elsewhere ctx unhandled), (command ctx).
  - rewrite Hcmd, Hcog. by destruct (handled_elsewhere ctx unhandled), err.
  - unfold handled_elsewhere. rewrite Hcmd. simpl.
    destruct Hh as [-> | (c & -> & ->)]; [done|]. by rewrite orb_true_r.
Qed.

Lemma early_guards_return_witness :
  on_command_error (installed [Enable]) (in_guild ping) OtherError false
    = returns (installed [Enable]) [] ∧
  on_command_error (installed [Enable])
    (in_guild (mkCommand "ping" "ping" None false)) CommandInvokeError true
    = returns (installed [Enable]) [] ∧
  on_command_error (installed [Enable])
    (in_guild (mkCommand "ping" "ping" (Some fun_cog) true)) CommandInvokeError false
    = returns (installed [Enable]) [].
Proof.
  split; [|split].
  - apply early_guards_return. by left.
  - apply early_guards_return. right. left. by eexists.
  - apply early_guards_return. right. right. split; [done|]. eexists. split; [done|]. by left.
Defined.

(** What [warn_and_count] emits: the earlier events, the warning if
    messages are enabled, and then nothing that is a message. *)
Lemma warn_and_count_events (self : Cog) (user : Z) (cmd : Command) (evs : list event) :
  ∃ tail,
    events (warn_and_count self user cmd evs) =
      evs ++ (if message_enabled (config self) then [Send (message (config self))] else [])
          ++ tail ∧
    Forall (λ e, is_send e = false) tail.
Proof.
  unfold warn_and_count.
  assert (Hevs : (if message_enabled (config self)
                  then evs ++ [Send (message (config self))] else evs) =
                 evs ++ (if message_enabled (config self)
                         then [Send (message (config self))] else [])).
  { case_match; [done | by rewrite app_nil_r]. }
  rewrite Hevs.
  destruct (count_error _ _ _) as [e|cache']; simpl.
  { exists []. by rewrite !app_nil_r. }
  destruct (reached _ _ _ _) as [e|[am|]]; simpl.
  - exists []. by rewrite !app_nil_r.
  - eexists. rewrite <- app_assoc. split; [done|]. by repeat constructor.
  - exists []. by rewrite !app_nil_r.
Qed.

(** X2: the handler sends a message exactly when the error passes the
    guards and messages are enabled, and what it sends is the stored
    warning message. *)
Theorem warning_sent_iff (self : Cog) (ctx : Context) (err : Error) (unhandled : bool)
    (m : pyobj) :
  Send m ∈ events (on_command_error self ctx err unhandled) ↔
  is_Some (watched self ctx err unhandled) ∧
  message_enabled (config self) = true ∧
  m = message (config self).
Proof.
  destruct (watched self ctx err unhandled) as [cmd|] eqn:Hw.
  - apply watched_runs_count in Hw as [_ ->].
    destruct (warn_and_count_events self (author ctx) cmd (snd (ignored_place self ctx)))
      as (tail & -> & Htail).
    pose proof (ignored_place_debug self ctx) as Hdbg.
    rewrite !elem_of_app. split.
    + intros [Hin | [Hin | Hin]].
      * rewrite Forall_forall in Hdbg. by apply Hdbg in Hin.
      * destruct (message_enabled (config self)); [|by apply elem_of_nil in Hin].
        apply list_elem_of_singleton in Hin as [= ->]. by split; [eexists|].
      * rewrite Forall_forall in Htail. by apply Htail in Hin.
    + intros (_ & -> & ->). right. left. apply list_elem_of_here.
  - split; [|by intros ([? [=]] & _)].
    apply unwatched_no_effect in Hw as [_ Hdbg].
    intros Hin. rewrite Forall_forall in Hdbg. by apply Hdbg in Hin.
Qed.

Lemma warning_sent_iff_witness :
  Send (message (config (installed [Enable]))) ∈
    events (on_command_error (installed [Enable]) (in_guild ping) CommandInvokeError false).
Proof.
  apply (warning_sent_iff (installed [Enable]) (in_guild ping) CommandInvokeError false).
  split; [by eexists|]. split; reflexivity.
Defined.

(** ** Who gets blacklisted *)

(** What passing the guards means for the author and the command. *)
Lemma watched_facts (self : Cog) (ctx : Context) (err : Error) (unhandled : bool)
    (cmd : Command) :
  watched self ctx err unhandled = Some cmd →
  err = CommandInvokeError ∧ command ctx = Some cmd ∧ is_Some (cog cmd) ∧
  enabled (config self) = true ∧ (author ctx ∉ owner_ids self) ∧
  (qualified_name cmd ∉ whitelist_commands (config self)) ∧
  (author ctx ∉ whitelist_users (config self)).
Proof.
  unfold watched, is_owner.
  destruct err; [|done].
  destruct (command ctx) as [cmd'|]; [|done].
  repeat (case_match; try done). intros [= <-].
  repeat match goal with
         | H : negb _ = false |- _ => apply negb_false_iff in H
         | H : bool_decide _ = true |- _ => apply bool_decide_eq_true_1 in H
         | H : bool_decide _ = false |- _ => apply bool_decide_eq_false_1 in H
         end.
  done.
Qed.

(** One operation leaves the blacklist alone or adds the author of an
    error that passed the guards. *)
Lemma run_op_blacklist (o : op) (self : Cog) :
  blacklist (state (run_op o self)) = blacklist self ∨
  ∃ ctx err unhandled cmd,
    o = OnCommandError ctx err unhandled ∧
    watched self ctx err unhandled = Some cmd ∧
    blacklist (state (run_op o self)) = {[ author ctx ]} ∪ blacklist self.
Proof.
  destruct o; simpl.
  - destruct (watched self ctx err unhandled_by_cog) as [cmd|] eqn:Hw.
    + pose proof Hw as Hw'. apply watched_runs_count in Hw' as [_ ->].
      unfold warn_and_count.
      destruct (count_error _ _ _) as [e|cache']; simpl; [by left|].
      destruct (reached _ _ _ _) as [e|[am|]]; simpl; [by left| |by left].
      right. by exists ctx, err, unhandled_by_cog, cmd.
    + left. by apply unwatched_no_effect in Hw as [-> _].
  - left. unfold clear_cache. repeat (case_match; simpl; try done).
  - left. unfold ignore_add. by case_match.
  - left. unfold ignore_remove. by case_match.
  - by left.
  - left. unfold error_blacklist_clear_usage. by case_match.
  - left. unfold invoke_amount, error_blacklist_amount. repeat (case_match; simpl; try done).
  - left. unfold whitelist_add. by case_match.
  - left. unfold whitelist_remove. by case_match.
  - left. unfold invoke_message_set, message_set. repeat (case_match; simpl; try done).
  - by left.
Qed.

Lemma run_op_owner_ids (o : op) (self : Cog) :
  owner_ids (state (run_op o self)) = owner_ids self.
Proof.
  destruct o; simpl.
  - apply handler_frame.
  - unfold clear_cache. repeat (case_match; simpl; try done).
  - unfold ignore_add. by case_match.
  - unfold ignore_remove. by case_match.
  - done.
  - unfold error_blacklist_clear_usage. by case_match.
  - unfold invoke_amount, error_blacklist_amount. repeat (case_match; simpl; try done).
  - unfold whitelist_add. by case_match.
  - unfold whitelist_remove. by case_match.
  - unfold invoke_message_set, message_set. repeat (case_match; simpl; try done).
  - done.
Qed.

Lemma run_cons (o : op) (ops : list op) (self : Cog) :
  run (o :: ops) self = run ops (state (run_op o self)).
Proof. done. Qed.

(** X3: over any sequence of operations the cog only adds to the bot's
    blacklist, and whoever it adds is the author of a [CommandInvokeError]
    that was delivered to the handler. *)
Theorem blacklist_only_grows (ops : list op) (self : Cog) :
  blacklist self ⊆ blacklist (run ops self) ∧
  ∀ user, user ∈ blacklist (run ops self) →
    user ∈ blacklist self ∨
    ∃ ctx unhandled,
      OnCommandError ctx CommandInvokeError unhandled ∈ ops ∧ author ctx = user.
Proof.
  revert self. induction ops as [|o ops IH]; intros self.
  { split; [done|]. intros user Hin. by left. }
  rewrite run_cons. destruct (IH (state (run_op o self))) as [Hsub Hprov].
  destruct (run_op_blacklist o self) as [Heq | (ctx & err & unh & cmd & -> & Hw & Heq)].
  - rewrite Heq in Hsub, Hprov. split; [done|].
    intros user Hin. destruct (Hprov user Hin) as [?|(ctx & unh & Hops & Ha)]; [by left|].
    right. exists ctx, unh. split; [by apply list_elem_of_further | done].
  - rewrite Heq in Hsub, Hprov.
    apply watched_facts in Hw as (-> & _).
    split; [etrans; [apply union_subseteq_r | exact Hsub]|].
    intros user Hin. destruct (Hprov user Hin) as [Hu|(ctx' & unh' & Hops & Ha)].
    + apply elem_of_union in Hu as [Hu|Hu]; [|by left].
      apply elem_of_singleton in Hu as ->. right. exists ctx, unh.
      split; [apply list_elem_of_here | done].
    + right. exists ctx', unh'. split; [by apply list_elem_of_further | done].
Qed.

(** X4: no sequence of operations on a loaded cog blacklists an owner of
    the bot. *)
Theorem owners_never_blacklisted (ops : list op) (self : Cog) (user : Z) :
  user ∈ owner_ids self →
  user ∉ blacklist self →
  user ∉ blacklist (run ops self).
Proof.
  revert self. induction ops as [|o ops IH]; intros self Hown Hout; [done|].
  rewrite run_cons. apply IH; [by rewrite run_op_owner_ids|].
  destruct (run_op_blacklist o self) as [Heq | (ctx & err & unh & cmd & -> & Hw & Heq)];
    rewrite Heq; [done|].
  intros Hin. apply elem_of_union in Hin as [Hu|Hu]; [|done].
  apply elem_of_singleton in Hu as ->.
  apply watched_facts in Hw as (_ & _ & _ & _ & Hnot & _). done.
Qed.

Lemma owners_never_blacklisted_witness :
  1 ∉ blacklist (run [Amount 2; OnCommandError owner_ctx CommandInvokeError false;
                      OnCommandError owner_ctx CommandInvokeError false]
                   (installed [Enable])).
Proof.
  apply (owners_never_blacklisted _ (installed [Enable]) 1).
  - vm_compute. reflexivity.
  - vm_compute. discriminate.
Defined.

Lemma blacklist_only_grows_witness :
  let ops := [Amount 2; fails ping; fails ping] in
  42 ∈ blacklist (installed [Enable]) ∨
  ∃ ctx unhandled, OnCommandError ctx CommandInvokeError unhandled ∈ ops ∧ author ctx = 42.
Proof.
  destruct (blacklist_only_grows [Amount 2; fails ping; fails ping] (installed [Enable]))
    as [_ Hprov].
  apply Hprov. vm_compute. reflexivity.
Defined.

(** ** Repeated errors *)

(** The guards read only the settings and the owners. *)
Lemma watched_ext (s s' : Cog) (ctx : Context) (err : Error) (unhandled : bool) :
  config s = config s' → owner_ids s = owner_ids s' →
  watched s ctx err unhandled = watched s' ctx err unhandled.
Proof.
  intros Hc Ho. unfold watched, is_owner, ignored_place. by rewrite Hc, Ho.
Qed.

(** One counted error of a top-level command: the next one is counted
    too, the counter is one higher, and the author is on the blacklist
    afterwards if they were before or the new count has reached the
    amount. *)
Lemma counted_step (self : Cog) (ctx : Context) (err : Error) (unhandled : bool)
    (cmd : Command) :
  counted self ctx err unhandled = Some cmd →
  name cmd = qualified_name cmd →
  0 < amount (config self) →
  let self' := state (on_command_error self ctx err unhandled) in
  counted self' ctx err unhandled = Some cmd ∧
  config self' = config self ∧
  counter (_cache self') (author ctx) (qualified_name cmd) =
    counter (_cache self) (author ctx) (qualified_name cmd) + 1 ∧
  (author ctx ∈ blacklist self' ↔
   author ctx ∈ blacklist self ∨
   amount (config self) ≤ counter (_cache self) (author ctx) (qualified_name cmd) + 1).
Proof.
  intros Hc Htop Hpos. simpl.
  pose proof (handler_cache self ctx err unhandled) as Hcount. rewrite Hc in Hcount.
  pose proof (handler_frame self ctx err unhandled) as (_ & Hcfg & _ & _ & Hown).
  pose proof (top_level_threshold self ctx err unhandled cmd Hc Htop Hpos) as Hthr.
  simpl in Hthr.
  rewrite (count_error_adds_one _ _ _ _ Hcount) in *.
  split.
  { unfold counted. rewrite (watched_ext _ self) by done.
    assert (Hw : watched self ctx err unhandled = Some cmd).
    { revert Hc. unfold counted. repeat (case_match; try done). }
    rewrite Hw. destruct (count_error_lookup _ _ _ _ Hcount) as (d & Hd & Hk).
    unfold count_error. by rewrite Hd, Hk. }
  split; [done|]. split; [done|].
  case_bool_decide as Hge; destruct Hthr as [-> _].
  - split; [by right|]. intros _. apply elem_of_union_l. by apply elem_of_singleton.
  - split; [by left|]. by intros [?|?].
Qed.

(** X5: when the same error of a top-level command is counted [n] times
    in a row for a user who is not blacklisted, the counter rises by [n],
    and the user is on the blacklist afterwards exactly if at least one
    error was delivered and the count has reached the amount. *)
Theorem repeated_errors_blacklist (n : nat) (self : Cog) (ctx : Context) (err : Error)
    (unhandled : bool) (cmd : Command) :
  counted self ctx err unhandled = Some cmd →
  name cmd = qualified_name cmd →
  0 < amount (config self) →
  author ctx ∉ blacklist self →
  let self' := repeat_error n ctx err unhandled self in
  counter (_cache self') (author ctx) (qualified_name cmd) =
    counter (_cache self) (author ctx) (qualified_name cmd) + Z.of_nat n ∧
  (author ctx ∈ blacklist self' ↔
   (0 < n)%nat ∧
   amount (config self) ≤ counter (_cache self) (author ctx) (qualified_name cmd) + Z.of_nat n).
Proof.
  intros Hc Htop Hpos Hout. simpl.
  assert (Hall : counted (repeat_error n ctx err unhandled self) ctx err unhandled = Some cmd ∧
                 config (repeat_error n ctx err unhandled self) = config self ∧
                 counter (_cache (repeat_error n ctx err unhandled self)) (author ctx)
                   (qualified_name cmd) =
                   counter (_cache self) (author ctx) (qualified_name cmd) + Z.of_nat n ∧
                 (author ctx ∈ blacklist (repeat_error n ctx err unhandled self) ↔
                  (0 < n)%nat ∧
                  amount (config self) ≤
                    counter (_cache self) (author ctx) (qualified_name cmd) + Z.of_nat n)).
  { induction n as [|n (IHc & IHcfg & IHn & IHb)].
    - simpl. split; [done|]. split; [done|]. split; [lia|].
      split; [done | intros [? _]; lia].
    - change (repeat_error (S n) ctx err unhandled self) with
        (state (on_command_error (repeat_error n ctx err unhandled self) ctx err unhandled)).
      destruct (counted_step _ ctx err unhandled cmd IHc Htop) as (Hc' & Hcfg' & Hn' & Hb');
        [by rewrite IHcfg|].
      split; [done|]. split; [by rewrite Hcfg'|]. split; [rewrite Hn', IHn; lia|].
      rewrite Hb', IHb, IHcfg, IHn. split.
      + intros [[_ ?]|?]; split; lia.
      + intros [_ ?]. right. lia. }
  destruct Hall as (_ & _ & Hn & Hb). done.
Qed.

Lemma repeated_errors_blacklist_witness :
  let self := installed [Enable; Amount 3] in
  (42 ∈ blacklist (repeat_error 2 (in_guild ping) CommandInvokeError false self)
     ↔ (0 < 2)%nat ∧ 3 ≤ 0 + Z.of_nat 2) ∧
  (42 ∈ blacklist (repeat_error 3 (in_guild ping) CommandInvokeError false self)
     ↔ (0 < 3)%nat ∧ 3 ≤ 0 + Z.of_nat 3).
Proof.
  split.
  - apply (repeated_errors_blacklist 2 (installed [Enable; Amount 3]) (in_guild ping)
             CommandInvokeError false ping); try reflexivity. vm_compute. discriminate.
  - apply (repeated_errors_blacklist 3 (installed [Enable; Amount 3]) (in_guild ping)
             CommandInvokeError false ping); try reflexivity. vm_compute. discriminate.
Defined.

(** ** Loading and the daily task *)

Lemma reload_config (self : Cog) : config (reload self) = config self.
Proof. unfold reload, cog_load, cog_unload. repeat (case_match; simpl; try done). Qed.

(** X6: a reload keeps the settings, the stored user data and the bot's
    blacklist, but the new instance starts with every counter at zero, its
    first run ahead, and the task running exactly if the clear-usage flag
    is set. *)
Theorem reload_forgets_counts (self : Cog) (uid : Z) (key : string) :
  counter (_cache (reload self)) uid key = 0 ∧
  config (reload self) = config self ∧
  users (reload self) = users self ∧
  blacklist (reload self) = blacklist self ∧
  first_run (reload self) = true ∧
  task_running (reload self) = clear_usage (config self).
Proof.
  assert (Hcache : _cache (reload self) =
                   (λ errs, {[ "errors" := Errors errs ]}) <$> users self).
  { unfold reload, cog_load, cog_unload, all_users.
    repeat (case_match; simpl; try done). }
  split.
  { unfold counter. rewrite Hcache, lookup_fmap.
    destruct (users self !! uid) as [errs|]; simpl; [|done].
    destruct (decide (key = "errors")) as [->|Hne].
    - by rewrite lookup_singleton_eq.
    - by rewrite lookup_singleton_ne. }
  unfold reload, cog_load, cog_unload.
  repeat (case_match; simpl; try done).
Qed.

Lemma run_op_task_stopped (o : op) (self : Cog) :
  task_running self = false →
  task_running (state (run_op o self)) = false ∧
  users (state (run_op o self)) = users self.
Proof.
  intros Hstop. destruct o; simpl.
  - pose proof (handler_frame self ctx err unhandled_by_cog) as (-> & _ & _ & -> & _).
    done.
  - by rewrite Hstop.
  - unfold ignore_add. by case_match.
  - unfold ignore_remove. by case_match.
  - done.
  - unfold error_blacklist_clear_usage. by case_match.
  - unfold invoke_amount, error_blacklist_amount. repeat (case_match; simpl; try done).
  - unfold whitelist_add. by case_match.
  - unfold whitelist_remove. by case_match.
  - unfold invoke_message_set, message_set. repeat (case_match; simpl; try done).
  - done.
Qed.

(** X7: once the daily task of an instance is stopped, no command, error
    or tick starts it again and the stored user data is never cleared; in
    particular turning the clear-usage flag back on does not resume the
    clearing. *)
Theorem stopped_task_stays_stopped (ops : list op) (self : Cog) :
  task_running self = false →
  task_running (run ops self) = false ∧ users (run ops self) = users self.
Proof.
  revert self. induction ops as [|o ops IH]; intros self Hstop; [done|].
  rewrite run_cons.
  destruct (run_op_task_stopped o self Hstop) as [Hstop' Husers].
  destruct (IH _ Hstop') as [-> ->]. done.
Qed.

Lemma stopped_task_stays_stopped_witness :
  let self := state (clear_cache (state (error_blacklist_clear_usage
                (state (clear_cache loaded_sample)) false))) in
  let ops := [ClearUsage true; ClearCacheRun; ClearCacheRun] in
  clear_usage (config (run ops self)) = true ∧
  task_running (run ops self) = false ∧
  users (run ops self) = stored_sample.
Proof.
  split; [reflexivity|].
  apply (stopped_task_stays_stopped [ClearUsage true; ClearCacheRun; ClearCacheRun]
           (state (clear_cache (state (error_blacklist_clear_usage
              (state (clear_cache loaded_sample)) false))))).
  reflexivity.
Defined.

(** ** The lists of the settings *)

Lemma list_remove_subseteq {A} `{EqDecision A} (x y : A) (l : list A) :
  y ∈ list_remove x l → y ∈ l.
Proof.
  induction l as [|z l IH]; simpl; [done|].
  case_decide.
  - intros ?. by apply list_elem_of_further.
  - intros [->|?]%elem_of_cons; [apply list_elem_of_here|].
    apply list_elem_of_further. by apply IH.
Qed.

Lemma list_remove_NoDup {A} `{EqDecision A} (x : A) (l : list A) :
  NoDup l → NoDup (list_remove x l).
Proof.
  induction 1 as [|z l Hz Hl IH]; simpl; [constructor|].
  case_decide; [done|].
  constructor; [|done]. intros Hin. by apply list_remove_subseteq in Hin.
Qed.

Lemma list_remove_gone {A} `{EqDecision A} (x : A) (l : list A) :
  NoDup l → x ∉ list_remove x l.
Proof.
  induction 1 as [|z l Hz Hl IH]; simpl; [by apply not_elem_of_nil|].
  case_decide as Heq; [by subst|].
  intros [?|?]%elem_of_cons; done.
Qed.

Lemma list_remove_snoc {A} `{EqDecision A} (x : A) (l : list A) :
  x ∉ l → list_remove x (l ++ [x]) = l.
Proof.
  induction l as [|z l IH]; simpl; intros Hout.
  - by rewrite decide_True.
  - apply not_elem_of_cons in Hout as [Hne Hout].
    rewrite decide_False by done. by rewrite IH.
Qed.

Lemma NoDup_snoc {A} (x : A) (l : list A) : NoDup l → x ∉ l → NoDup (l ++ [x]).
Proof.
  intros Hl Hx. apply NoDup_app. split; [done|]. split; [|apply NoDup_singleton].
  intros y Hy ->%list_elem_of_singleton. done.
Qed.

Lemma whitelist_add_in_append (self : Cog) (t : UserOrCommandCog) :
  in_whitelist t (config (whitelist_add_append self t)) = true.
Proof.
  destruct t; simpl; apply bool_decide_eq_true_2, elem_of_app; right;
    apply list_elem_of_here.
Qed.

Lemma run_op_ignore_lists (o : op) (self : Cog) :
  ignore_lists_distinct (config self) →
  ignore_lists_distinct (config (state (run_op o self))).
Proof.
  intros Hnd. pose proof Hnd as (Hgld & Hchn).
  destruct o; simpl.
  - by destruct (handler_frame self ctx err unhandled_by_cog) as (_ & -> & _).
  - unfold clear_cache. repeat (case_match; simpl; try done).
  - unfold ignore_add. case_bool_decide as Hin; simpl; [done|].
    destruct t; simpl in *; split; try done; by apply NoDup_snoc.
  - unfold ignore_remove. case_bool_decide as Hin; simpl; [|done].
    destruct t; simpl in *; split; try done; by apply list_remove_NoDup.
  - done.
  - unfold error_blacklist_clear_usage. by case_match.
  - unfold invoke_amount, error_blacklist_amount. repeat (case_match; simpl; try done).
  - unfold whitelist_add. case_match; simpl; [done|]. by destruct t.
  - unfold whitelist_remove. case_match; simpl; [done|]. by destruct t.
  - unfold invoke_message_set, message_set. repeat (case_match; simpl; try done).
  - done.
Qed.

Lemma interleaved_step_ignore_lists (i : interleaved) (self : Cog) :
  ignore_lists_distinct (config self) →
  ignore_lists_distinct (config (interleaved_step self i)).
Proof.
  intros Hnd. destruct i as [[o|]|t|t].
  - by apply run_op_ignore_lists.
  - change (interleaved_step self (Whole Reload)) with (reload self).
    by rewrite reload_config.
  - by destruct t.
  - simpl. unfold whitelist_remove_drop. case_match; simpl; [|done]. by destruct t.
Qed.

(** The sequential commands are their two halves run one after the other. *)
Lemma whitelist_halves (self : Cog) (t : UserOrCommandCog) :
  whitelist_add self t =
    returns (if fst (whitelist_add_test self t) then whitelist_add_append self t else self)
      (snd (whitelist_add_test self t)) ∧
  state (whitelist_remove self t) = default self (whitelist_remove_drop self t).
Proof.
  unfold whitelist_add, whitelist_add_test, whitelist_remove, whitelist_remove_drop.
  by destruct (in_whitelist t (config self)).
Qed.

(** X8: in every state reached from a first installation, through any
    commands, errors, ticks and reloads, also when invocations of the
    whitelist commands overlap, neither ignore list holds an id twice;
    so ignore remove, which drops the first occurrence only, leaves no
    occurrence behind: the removed guild or channel is not in its ignore
    list any more. *)
Theorem ignore_lists_hold_no_duplicates (tr : list interleaved)
    (bot_blacklist bot_owners : gset Z) :
  let self := interleaved_history tr bot_blacklist bot_owners in
  ignore_lists_distinct (config self) ∧
  (∀ t, target_id t ∉ ignore_data t (config (state (ignore_remove self t)))).
Proof.
  assert (Hnd : ignore_lists_distinct
                  (config (interleaved_history tr bot_blacklist bot_owners))).
  { unfold interleaved_history.
    assert (Hinit : ignore_lists_distinct (config (install bot_blacklist bot_owners))).
    { split; apply NoDup_nil_2. }
    revert Hinit. generalize (install bot_blacklist bot_owners).
    induction tr as [|i tr IH]; intros self Hnd; simpl; [done|].
    by apply IH, interleaved_step_ignore_lists. }
  split; [done|]. destruct Hnd as [Hgld Hchn]. intros t.
  unfold ignore_remove.
  destruct (bool_decide (target_id t ∈ ignore_data t (config _))) eqn:Hin; simpl.
  - destruct t; simpl in *; by apply list_remove_gone.
  - by apply bool_decide_eq_false_1 in Hin.
Qed.

Lemma list_remove_middle {A} `{EqDecision A} (x : A) (l l' : list A) :
  x ∉ l → list_remove x (l ++ x :: l') = l ++ l'.
Proof.
  induction l as [|z l IH]; simpl; intros Hout.
  - by rewrite decide_True.
  - apply not_elem_of_cons in Hout as [Hne Hout].
    rewrite decide_False by done. by rewrite IH.
Qed.

(** X17: the whitelists have no such protection.  When two invocations of
    whitelist add for the same entry, not whitelisted yet, overlap, both
    tests pass and both appends run: the entry is stored twice, one
    whitelist remove leaves it whitelisted, and only a second remove
    clears it. *)
Theorem overlapping_whitelist_adds (self : Cog) (t : UserOrCommandCog) :
  in_whitelist t (config self) = false →
  let twice := whitelist_add_append (whitelist_add_append self t) t in
  fst (whitelist_add_test self t) = true ∧
  in_whitelist t (config (state (whitelist_remove twice t))) = true ∧
  state (whitelist_remove twice t) = whitelist_add_append self t ∧
  state (whitelist_remove (state (whitelist_remove twice t)) t) = self.
Proof.
  intros Hout. simpl.
  assert (Htest : fst (whitelist_add_test self t) = true).
  { unfold whitelist_add_test. by rewrite Hout. }
  assert (Hfirst : state (whitelist_remove
                     (whitelist_add_append (whitelist_add_append self t) t) t)
                   = whitelist_add_append self t).
  { unfold whitelist_remove, whitelist_add_append.
    destruct self as [[] ? ? ? ? ? ?]; destruct t; simpl in *;
      apply bool_decide_eq_false_1 in Hout;
      (rewrite bool_decide_eq_true_2 by (apply elem_of_app; right; apply list_elem_of_here));
      simpl; unfold set_config; simpl; rewrite <- app_assoc; simpl;
      by rewrite list_remove_middle. }
  split; [done|]. rewrite Hfirst. split; [apply whitelist_add_in_append|].
  split; [done|].
  unfold whitelist_remove, whitelist_add_append.
  destruct self as [[] ? ? ? ? ? ?]; destruct t; simpl in *;
    apply bool_decide_eq_false_1 in Hout;
    (rewrite bool_decide_eq_true_2 by (apply elem_of_app; right; apply list_elem_of_here));
    simpl; unfold set_config; simpl; by rewrite list_remove_snoc.
Qed.

Lemma overlapping_whitelist_adds_witness :
  let self := installed [Enable] in
  let twice := whitelist_add_append (whitelist_add_append self (AUser 42)) (AUser 42) in
  whitelist_users (config twice) = [42; 42] ∧
  in_whitelist (AUser 42) (config (state (whitelist_remove twice (AUser 42)))) = true.
Proof.
  split; [reflexivity|].
  destruct (overlapping_whitelist_adds (installed [Enable]) (AUser 42)) as (_ & Hin & _);
    [reflexivity | exact Hin].
Defined.

(** X9: ignoring a guild or channel that is not ignored yet and removing
    it again gives back the state before the two commands. *)
Theorem ignore_add_remove (self : Cog) (t : ChannelOrGuild) :
  target_id t ∉ ignore_data t (config self) →
  state (ignore_remove (state (ignore_add self t)) t) = self.
Proof.
  intros Hout. unfold ignore_add. rewrite bool_decide_eq_false_2 by done. simpl.
  unfold ignore_remove.
  destruct self as [[] ? ? ? ? ? ?]; destruct t; simpl in *;
    (rewrite bool_decide_eq_true_2 by (apply elem_of_app; right; apply list_elem_of_here));
    simpl; unfold set_config; simpl; by rewrite list_remove_snoc.
Qed.

Lemma ignore_add_remove_witness :
  state (ignore_remove (state (ignore_add (installed [IgnoreAdd (AGuild 3 "home")])
                                 (AChannel 7 "general")))
           (AChannel 7 "general"))
    = installed [IgnoreAdd (AGuild 3 "home")].
Proof.
  apply (ignore_add_remove (installed [IgnoreAdd (AGuild 3 "home")]) (AChannel 7 "general")).
  vm_compute. apply not_elem_of_nil.
Defined.

(** X10: whitelisting a user, cog or command that is not whitelisted yet
    and removing it again gives back the state before the two commands. *)
Theorem whitelist_add_remove (self : Cog) (t : UserOrCommandCog) :
  in_whitelist t (config self) = false →
  state (whitelist_remove (state (whitelist_add self t)) t) = self.
Proof.
  intros Hout. unfold whitelist_add. rewrite Hout. simpl.
  unfold whitelist_remove.
  destruct self as [[] ? ? ? ? ? ?]; destruct t; simpl in *;
    apply bool_decide_eq_false_1 in Hout;
    (rewrite bool_decide_eq_true_2 by (apply elem_of_app; right; apply list_elem_of_here));
    simpl; unfold set_config; simpl; by rewrite list_remove_snoc.
Qed.

Lemma whitelist_add_remove_witness :
  state (whitelist_remove (state (whitelist_add (installed [WhitelistAdd (AUser 5)])
                                    (ACommand "ping")))
           (ACommand "ping"))
    = installed [WhitelistAdd (AUser 5)].
Proof.
  apply (whitelist_add_remove (installed [WhitelistAdd (AUser 5)]) (ACommand "ping")).
  reflexivity.
Defined.

(** ** Additions take effect *)

Lemma ignore_add_in (self : Cog) (t : ChannelOrGuild) :
  target_id t ∈ ignore_data t (config (state (ignore_add self t))).
Proof.
  unfold ignore_add. case_bool_decide as Hin; simpl; [done|].
  destruct t; simpl; apply elem_of_app; right; apply list_elem_of_here.
Qed.

Lemma whitelist_add_in (self : Cog) (t : UserOrCommandCog) :
  in_whitelist t (config (state (whitelist_add self t))) = true.
Proof.
  unfold whitelist_add. destruct (in_whitelist t (config self)) eqn:Hin; simpl; [done|].
  destruct t; simpl; apply bool_decide_eq_true_2, elem_of_app; right;
    apply list_elem_of_here.
Qed.

Lemma ignored_unwatched (self : Cog) (ctx : Context) (err : Error) (unhandled : bool)
    (gid : Z) :
  guild ctx = Some gid →
  gid ∈ ignore_guilds (config self) ∨
    (∃ cid, channel ctx = Some cid ∧ cid ∈ ignore_channels (config self)) →
  watched self ctx err unhandled = None.
Proof.
  intros Hg Hign.
  assert (Hplace : fst (ignored_place self ctx) = true).
  { unfold ignored_place. rewrite Hg.
    destruct Hign as [Hin | (cid & Hc & Hin)].
    - by rewrite (bool_decide_eq_true_2 _ Hin).
    - by rewrite Hc, (bool_decide_eq_true_2 _ Hin), orb_true_r. }
  unfold watched. rewrite Hplace. repeat (case_match; try done).
Qed.

(** X11: the add commands take effect on the handler at once.  After a
    guild is added to the ignore list, errors in that guild are ignored;
    after a channel is added, errors in that channel of a guild are
    ignored; after a user or a command is added to the whitelist, errors
    of that user or of that command are ignored. *)
Theorem additions_take_effect (self : Cog) (ctx : Context) (err : Error) (unhandled : bool) :
  (∀ gid gname, guild ctx = Some gid →
     ignores (state (ignore_add self (AGuild gid gname))) ctx err unhandled) ∧
  (∀ gid cid cname, guild ctx = Some gid → channel ctx = Some cid →
     ignores (state (ignore_add self (AChannel cid cname))) ctx err unhandled) ∧
  ignores (state (whitelist_add self (AUser (author ctx)))) ctx err unhandled ∧
  (∀ cmd, command ctx = Some cmd →
     ignores (state (whitelist_add self (ACommand (qualified_name cmd)))) ctx err unhandled).
Proof.
  split; [|split; [|split]].
  - intros gid gname Hg. apply unwatched_no_effect, (ignored_unwatched _ _ _ _ gid Hg).
    left. apply (ignore_add_in self (AGuild gid gname)).
  - intros gid cid cname Hg Hc. apply unwatched_no_effect, (ignored_unwatched _ _ _ _ gid Hg).
    right. exists cid. split; [done|]. apply (ignore_add_in self (AChannel cid cname)).
  - pose proof (whitelist_add_in self (AUser (author ctx))) as Hin.
    apply bool_decide_eq_true_1 in Hin.
    destruct (command ctx) as [cmd|] eqn:Hcmd.
    + apply (whitelisted_command_or_user_ignored _ _ _ _ cmd Hcmd). by right.
    + apply unwatched_no_effect. unfold watched. rewrite Hcmd. by destruct err.
  - intros cmd Hcmd.
    pose proof (whitelist_add_in self (ACommand (qualified_name cmd))) as Hin.
    apply bool_decide_eq_true_1 in Hin.
    apply (whitelisted_command_or_user_ignored _ _ _ _ cmd Hcmd). by left.
Qed.

Lemma additions_take_effect_witness :
  ignores (state (ignore_add (installed [Enable]) (AGuild 3 "home")))
    (in_guild ping) CommandInvokeError false ∧
  ignores (state (ignore_add (installed [Enable]) (AChannel 7 "general")))
    (in_guild ping) CommandInvokeError false ∧
  ignores (state (whitelist_add (installed [Enable]) (ACommand "ping")))
    (in_guild ping) CommandInvokeError false.
Proof.
  destruct (additions_take_effect (installed [Enable]) (in_guild ping) CommandInvokeError false)
    as (Hguild & Hchannel & _ & Hcommand).
  split; [by apply Hguild|]. split; [by apply (Hchannel 3)|].
  by apply (Hcommand ping).
Defined.

(** ** The warning message *)

Lemma watched_sends_warning (self : Cog) (ctx : Context) (err : Error) (unhandled : bool) :
  is_Some (watched self ctx err unhandled) →
  message_enabled (config self) = true →
  Send (message (config self)) ∈ events (on_command_error self ctx err unhandled).
Proof.
  intros [cmd Hw] Hon. apply watched_runs_count in Hw as [_ ->].
  destruct (warn_and_count_events self (author ctx) cmd (snd (ignored_place self ctx)))
    as (tail & -> & _).
  rewrite Hon, !elem_of_app. right. left. apply list_elem_of_here.
Qed.

(** X12: while messages are disabled the message-set command fails its
    check and changes nothing; while they are enabled, setting a
    non-empty message stores it, leaves every other setting alone, and
    from then on that text is the warning a watched error sends. *)
Theorem message_set_takes_effect (self : Cog) (m : string) :
  (message_enabled (config self) = false →
   ∀ arg, invoke_message_set self arg = raises CheckFailure self []) ∧
  (message_enabled (config self) = true → m ≠ EmptyString →
   let r := invoke_message_set self (Some m) in
   raised r = None ∧
   state r = set_config (with_message (PyStr m)) self ∧
   events r = [say "The message has been set"] ∧
   ∀ ctx err unhandled,
     is_Some (watched (state r) ctx err unhandled) →
     Send (PyStr m) ∈ events (on_command_error (state r) ctx err unhandled)).
Proof.
  split.
  - intros Hoff arg. unfold invoke_message_set, check_enabled. by rewrite Hoff.
  - intros Hon Hm. simpl.
    assert (Hrun : invoke_message_set self (Some m) =
                   returns (set_config (with_message (PyStr m)) self)
                     [say "The message has been set"]).
    { unfold invoke_message_set, check_enabled, message_set, truthy. rewrite Hon.
      destruct (String.eqb m EmptyString) eqn:Heq; [|done].
      by apply String.eqb_eq in Heq. }
    rewrite Hrun. simpl. repeat split.
    intros ctx err unhandled Hw.
    by apply (watched_sends_warning _ _ _ _ Hw).
Qed.

Lemma message_set_takes_effect_witness :
  invoke_message_set (installed [MessageEnable]) None
    = raises CheckFailure (installed [MessageEnable]) [] ∧
  Send (PyStr "Stop that")
    ∈ events (on_command_error (state (invoke_message_set (installed [Enable]) (Some "Stop that")))
                (in_guild ping) CommandInvokeError false).
Proof.
  split.
  - destruct (message_set_takes_effect (installed [MessageEnable]) "Stop that") as [Hoff _].
    apply Hoff. reflexivity.
  - destruct (message_set_takes_effect (installed [Enable]) "Stop that") as [_ Hon].
    destruct Hon as (_ & _ & _ & Hsend); [reflexivity | discriminate |].
    apply Hsend. by eexists.
Defined.

(** ** The toggles *)

(** X13: the enable command and the message-enable command flip their
    flag, so that running either twice gives back the state before; the
    clear-usage command leaves the flag at its argument whatever it was,
    and never touches the task. *)
Theorem toggles_flip (self : Cog) (toggle : bool) :
  enabled (config (state (error_blacklist_enable self))) = negb (enabled (config self)) ∧
  state (error_blacklist_enable (state (error_blacklist_enable self))) = self ∧
  message_enabled (config (state (message_enable self)))
    = negb (message_enabled (config self)) ∧
  state (message_enable (state (message_enable self))) = self ∧
  clear_usage (config (state (error_blacklist_clear_usage self toggle))) = toggle ∧
  task_running (state (error_blacklist_clear_usage self toggle)) = task_running self.
Proof.
  destruct self as [[en am cu wc wg wu ig ic msg men] us ca fr tr bl ow].
  unfold error_blacklist_enable, message_enable, error_blacklist_clear_usage, set_config,
    with_enabled, with_message_enabled, with_clear_usage; simpl.
  rewrite !negb_involutive.
  repeat split; destruct cu, toggle; done.
Qed.

(** ** A command called like the stored key *)

(** X14: for a user who had stored data when the instance was loaded, an
    error of a command whose qualified name is ["errors"] that passes the
    guards ends in a [TypeError] (the cache holds the stored dictionary
    under that key, not a number), after the warning was sent if messages
    are enabled; nothing is counted and nobody is blacklisted. *)
Theorem stored_key_raises (self : Cog) (ctx : Context) (err : Error) (unhandled : bool)
    (cmd : Command) (errs : gmap string Z) :
  users self !! author ctx = Some errs →
  qualified_name cmd = "errors" →
  watched (cog_load self) ctx err unhandled = Some cmd →
  raised (on_command_error (cog_load self) ctx err unhandled) = Some TypeError ∧
  state (on_command_error (cog_load self) ctx err unhandled) = cog_load self ∧
  (message_enabled (config (cog_load self)) = true →
   Send (message (config (cog_load self)))
     ∈ events (on_command_error (cog_load self) ctx err unhandled)).
Proof.
  intros Hu Hq Hw.
  assert (Hsend : message_enabled (config (cog_load self)) = true →
                  Send (message (config (cog_load self)))
                    ∈ events (on_command_error (cog_load self) ctx err unhandled)).
  { apply watched_sends_warning. by eexists. }
  revert Hsend. apply watched_runs_count in Hw as [_ ->]. intros Hsend.
  cut (raised (warn_and_count (cog_load self) (author ctx) cmd
                 (snd (ignored_place (cog_load self) ctx))) = Some TypeError ∧
       state (warn_and_count (cog_load self) (author ctx) cmd
                 (snd (ignored_place (cog_load self) ctx))) = cog_load self).
  { intros [? ?]. done. }
  unfold warn_and_count, count_error. rewrite Hq.
  assert (Hc : _cache (cog_load self) !! author ctx = Some {[ "errors" := Errors errs ]}).
  { unfold cog_load, all_users. destruct (clear_usage (config self)); simpl;
      by rewrite lookup_fmap, Hu. }
  rewrite Hc, lookup_singleton_eq. done.
Qed.

Lemma stored_key_raises_witness :
  let self := state (error_blacklist_enable
                 (__init__ register_global stored_sample ∅ {[ 1 ]})) in
  raised (on_command_error (cog_load self) (in_guild errors_cmd) CommandInvokeError false)
    = Some TypeError ∧
  state (on_command_error (cog_load self) (in_guild errors_cmd) CommandInvokeError false)
    = cog_load self ∧
  Send (message (config (cog_load self)))
    ∈ events (on_command_error (cog_load self) (in_guild errors_cmd) CommandInvokeError false).
Proof.
  destruct (stored_key_raises
              (state (error_blacklist_enable (__init__ register_global stored_sample ∅ {[ 1 ]})))
              (in_guild errors_cmd) CommandInvokeError false errors_cmd {[ "ping" := 3 ]})
    as (Hraised & Hstate & Hsend); try reflexivity.
  split; [exact Hraised|]. split; [exact Hstate|]. apply Hsend. reflexivity.
Defined.

(** ** The display commands *)






